(** * phosphor-dashboardpanel: the dashboard grid layout, embedded and verified

    The development follows the source of the [DashboardPanel] class: the
    twelve property descriptors with their write-time coercions, the
    layout-data derivation [_layoutData], the comparator [widgetCmp] and the
    layout pass [_layoutChildren] with its two modes.

    Numbers.  The geometry of a pass (positions, sizes, extents) is stated
    over exact rationals ([Q]): a [number] is a rational or [Infinity], the
    default of the upper bounds, and the panel of a pass ([DashboardPanel])
    is one whose aspect ratio and minimum sizes are finite.  Two parts of
    the program are also modelled over the full range of JavaScript
    numbers, where the idealisation would change the outcome:
    - the write-time coercions, in module [Js], over a value that may also
      be [NaN] or [-Infinity];
    - the mode decision and the clamps of [_layoutData], in module
      [Float64], over IEEE 754 doubles ([spec_float] with precision 53),
      each operation rounded as the machine rounds it.
    The integer-valued properties (always the result of [value | 0]) are
    read as [Z].

    Effects.  A pass calls [setOffsetGeometry] on each child and writes the
    height of the sizer element; it is modelled as the sequence of these
    effects, which [run] then applies to the geometry kept per widget and to
    the sizer. *)

From Stdlib Require Import ZArith QArith Qminmax Lqa Lia List Sorted Permutation.
From Stdlib Require Import Floats.SpecFloat.
From stdpp Require Import base option gmap.
Import ListNotations.

Local Open Scope Z_scope.

(** ** Numbers *)

(** A number of the geometry: a rational or [Infinity].  [NaN] and
    [-Infinity], which a caller can write to a property, are values of
    [Js.t]; the doubles themselves are in [Float64]. *)
Inductive number :=
  | Fin (q : Q)
  | Infinity.

(** [a === b] on numbers: numeric equality. *)
Definition number_eqb (a b : number) : bool :=
  match a, b with
  | Fin x, Fin y => Qeq_bool x y
  | Infinity, Infinity => true
  | _, _ => false
  end.

(** [a < b] on finite numbers. *)
Definition Qltb (a b : Q) : bool :=
  match (a ?= b)%Q with Lt => true | _ => false end.

Module Math.

(** [Math.max(a, b)] on finite numbers. *)
Definition max (a b : Q) : Q := Qmax a b.

(** [Math.min(a, b)] where [b] is an upper bound, possibly [Infinity]. *)
Definition min (a : Q) (b : number) : Q :=
  match b with
  | Fin q => Qmin a q
  | Infinity => a
  end.

(** [Math.max(a, v)] where [v] is any number, possibly [Infinity]. *)
Definition max_number (a : Q) (v : number) : number :=
  match v with
  | Fin q => Fin (Qmax a q)
  | Infinity => Infinity
  end.

End Math.

(** Truncation of a rational toward zero. *)
Definition Qtrunc (q : Q) : Z := Z.quot (Qnum q) (Z.pos (Qden q)).

(** Reduction of an integer modulo 2^32 into the signed 32-bit range. *)
Definition wrap32 (z : Z) : Z := (z + 2 ^ 31) mod 2 ^ 32 - 2 ^ 31.

(** [value | 0]: the ECMAScript ToInt32 conversion.  A finite number is
    truncated toward zero and wrapped modulo 2^32; [Infinity] becomes 0. *)
Definition ToInt32 (value : number) : Z :=
  match value with
  | Fin q => wrap32 (Qtrunc q)
  | Infinity => 0
  end.

(** ** The property system (package phosphor-properties) *)

(** What a descriptor's [changed] callback does with the owner. *)
Inductive ChangedHandler :=
  | OwnerUpdate          (* owner => owner.update() *)
  | PostLayoutRequest    (* owner => postMessage(owner, MSG_LAYOUT_REQUEST) *)
  | OnWidgetChanged.     (* onWidgetChanged *)

Module Property.

(** Modelled from the spec: the [Property] class of phosphor-properties,
    an external package whose source is not part of this repository.  A
    descriptor holds a default [value], a [coerce] function and a
    [changed] callback; [get] returns the stored value or the default if
    the property was never set on the owner; [set] coerces, stores, and
    invokes the callback only if the coerced value differs from the
    previous one. *)
Record t := Build {
  pid : nat;
  value : number;
  coerce : number -> number;
  changed : ChangedHandler
}.

(** Owners (panels and widgets) are identified by a number; the store is
    keyed by owner and property id. *)
Abbreviation owner := nat (only parsing).
Abbreviation store := (gmap (nat * nat) number) (only parsing).

(** Modelled from the spec: [get] returns the current value, or the default
    of the descriptor if the property was never set on the owner. *)
Definition get (p : t) (o : owner) (s : store) : number :=
  default (value p) (s !! (o, pid p)).

(** Modelled from the spec: [set] applies the coercion of the descriptor,
    stores the coerced value and, only if that differs from the previous
    value, reports the [changed] callback to invoke on the owner. *)
Definition set (p : t) (o : owner) (v : number) (s : store)
  : store * option (ChangedHandler * owner) :=
  let oldValue := get p o s in
  let newValue := coerce p v in
  (<[(o, pid p) := newValue]> s,
   if number_eqb oldValue newValue then None else Some (changed p, o)).

End Property.

(** ** The property descriptors of [DashboardPanel] *)

Definition aspectRatioProperty : Property.t :=
  Property.Build 0 (Fin 1) (fun value => Math.max_number 0 value) OwnerUpdate.

Definition columnCountProperty : Property.t :=
  Property.Build 1 (Fin 12)
    (fun value => Fin (inject_Z (Z.max 1 (ToInt32 value)))) PostLayoutRequest.

Definition minRowSizeProperty : Property.t :=
  Property.Build 2 (Fin 50) (fun value => Math.max_number 0 value) OwnerUpdate.

Definition minColumnSizeProperty : Property.t :=
  Property.Build 3 (Fin 50) (fun value => Math.max_number 0 value)
    PostLayoutRequest.

Definition maxRowSizeProperty : Property.t :=
  Property.Build 4 Infinity (fun value => Math.max_number 0 value) OwnerUpdate.

Definition maxColumnSizeProperty : Property.t :=
  Property.Build 5 Infinity (fun value => Math.max_number 0 value)
    PostLayoutRequest.

Definition rowSpacingProperty : Property.t :=
  Property.Build 6 (Fin 8)
    (fun value => Fin (inject_Z (Z.max 0 (ToInt32 value)))) OwnerUpdate.

Definition columnSpacingProperty : Property.t :=
  Property.Build 7 (Fin 8)
    (fun value => Fin (inject_Z (Z.max 0 (ToInt32 value)))) PostLayoutRequest.

Definition rowProperty : Property.t :=
  Property.Build 8 (Fin 0)
    (fun value => Fin (inject_Z (Z.max 0 (ToInt32 value)))) OnWidgetChanged.

Definition columnProperty : Property.t :=
  Property.Build 9 (Fin 0)
    (fun value => Fin (inject_Z (Z.max 0 (ToInt32 value)))) OnWidgetChanged.

Definition rowSpanProperty : Property.t :=
  Property.Build 10 (Fin 1)
    (fun value => Fin (inject_Z (Z.max 1 (ToInt32 value)))) OnWidgetChanged.

Definition columnSpanProperty : Property.t :=
  Property.Build 11 (Fin 1)
    (fun value => Fin (inject_Z (Z.max 1 (ToInt32 value)))) OnWidgetChanged.

(** The fields of the data model, and the descriptor behind each. *)
Module Field.

Inductive t :=
  | aspectRatio | columnCount | minRowSize | minColumnSize
  | maxRowSize | maxColumnSize | rowSpacing | columnSpacing
  | row | column | rowSpan | columnSpan.

Definition descriptor (f : t) : Property.t :=
  match f with
  | aspectRatio => aspectRatioProperty
  | columnCount => columnCountProperty
  | minRowSize => minRowSizeProperty
  | minColumnSize => minColumnSizeProperty
  | maxRowSize => maxRowSizeProperty
  | maxColumnSize => maxColumnSizeProperty
  | rowSpacing => rowSpacingProperty
  | columnSpacing => columnSpacingProperty
  | row => rowProperty
  | column => columnProperty
  | rowSpan => rowSpanProperty
  | columnSpan => columnSpanProperty
  end.

(** Integer-valued fields and their lower bound; the other fields are
    real-valued with lower bound 0. *)
Definition int_bound (f : t) : option Z :=
  match f with
  | columnCount | rowSpan | columnSpan => Some 1
  | rowSpacing | columnSpacing | row | column => Some 0
  | _ => None
  end.

End Field.

(** ** The layout: data read by a pass *)

(** [widget.sizeLimits]: the widget's own size limits. *)
Record SizeLimits := {
  minWidth : Q;
  minHeight : Q;
  maxWidth : number;
  maxHeight : number
}.

(** A child widget as the pass sees it: its identity, the attached
    placement properties as returned by [DashboardPanel.getRow] and its
    siblings, and its size limits. *)
Record Widget := {
  wid : nat;
  getRow : Z;
  getColumn : Z;
  getRowSpan : Z;
  getColumnSpan : Z;
  sizeLimits : SizeLimits
}.

(** [this.boxSizing]: the part of the box data the pass reads. *)
Record BoxSizing := {
  paddingTop : Q;
  paddingLeft : Q;
  horizontalSum : Q;
  verticalSum : Q
}.

(** Modelled from the spec: [boxSizing] is computed by the external package
    phosphor-domutil from the computed style of the node, the four border
    widths and the four paddings; [horizontalSum] and [verticalSum] are the
    sums of the horizontal and of the vertical ones (the inner width is
    "the offset width minus border and padding"). *)
Record BoxEdges := {
  borderTop : Q;
  borderLeft : Q;
  borderRight : Q;
  borderBottom : Q;
  edgePaddingTop : Q;
  edgePaddingLeft : Q;
  edgePaddingRight : Q;
  edgePaddingBottom : Q
}.

(** The panel as the pass sees it: the values returned by its property
    getters, its box sizing and its children in container order.  The
    aspect ratio and the minimum sizes are finite here; a panel that holds
    [Infinity] in one of them is outside this record (module [Float64]
    covers it for [_layoutData]). *)
Record DashboardPanel := {
  aspectRatio : Q;
  columnCount : Z;
  minRowSize : Q;
  minColumnSize : Q;
  maxRowSize : number;
  maxColumnSize : number;
  rowSpacing : Z;
  columnSpacing : Z;
  boxSizing : BoxSizing;
  children : list Widget
}.

Record ILayoutData := {
  singleCol : bool;
  colSize : Q;
  rowSize : Q
}.

(** The arguments of one [setOffsetGeometry] call. *)
Record Rect := {
  rect_left : Q;
  rect_top : Q;
  rect_width : Q;
  rect_height : Q
}.

(** What a pass does to the outside world, in order. *)
Inductive Effect :=
  | SetOffsetGeometry (w : nat) (r : Rect)   (* widget.setOffsetGeometry(..) *)
  | SetSizerHeight (h : Q).                  (* sizer.style.height = h + 'px' *)

Local Open Scope Q_scope.

(** ** [_layoutData] *)

(** The derivation over exact rationals.  The values it yields are those of
    the source up to the rounding of each operation; the comparison
    [idealColSize < minColSize] is made on the exact quotient, where the
    source makes it on the rounded one ([Float64._layoutData]). *)
Definition _layoutData (this : DashboardPanel) (innerWidth : Q) : ILayoutData :=
  let colCount := columnCount this in
  let fixedColSpace := inject_Z (columnSpacing this * (colCount - 1)) in
  let idealColSize := (innerWidth - fixedColSpace) / inject_Z colCount in
  let minColSize := minColumnSize this in
  let maxColSize := maxColumnSize this in
  if Qltb idealColSize minColSize then
    let colSize := Math.max minColSize (Math.min innerWidth maxColSize) in
    let rowSize := minRowSize this in
    {| singleCol := true; colSize := colSize; rowSize := rowSize |}
  else
    let colSize := Math.max minColSize (Math.min idealColSize maxColSize) in
    let minRowSize := minRowSize this in
    let maxRowSize := maxRowSize this in
    let idealRowSize := colSize * aspectRatio this in
    let rowSize := Math.max minRowSize (Math.min idealRowSize maxRowSize) in
    {| singleCol := false; colSize := colSize; rowSize := rowSize |}.

(** ** [widgetCmp] and [Array.prototype.sort] *)

Definition widgetCmp (a b : Widget) : Z :=
  let r1 := getRow a in
  let r2 := getRow b in
  if negb (r1 =? r2)%Z then (r1 - r2)%Z
  else
    let c1 := getColumn a in
    let c2 := getColumn b in
    (c1 - c2)%Z.

(** [array.sort(cmp)] is the engine's; it is modelled as a stable
    insertion sort: an element goes before the first one it does not
    compare greater than.  The array the pass sorts is the shallow copy the
    [children] getter returns, so a list is sorted into a new list. *)
Fixpoint insert {A} (cmp : A -> A -> Z) (a : A) (l : list A) : list A :=
  match l with
  | [] => [a]
  | b :: l' => if (cmp a b <=? 0)%Z then a :: l else b :: insert cmp a l'
  end.

Fixpoint sort {A} (cmp : A -> A -> Z) (l : list A) : list A :=
  match l with
  | [] => []
  | a :: l' => insert cmp a (sort cmp l')
  end.

(** ** [_layoutChildren] *)

(** The loop of the single-column branch, from cursor [y]; it returns the
    [setOffsetGeometry] calls in order and the final cursor. *)
Fixpoint singleColLoop (left colSize rowSize : Q) (rowSpacing : Z)
    (children : list Widget) (y : Q) : list Effect * Q :=
  match children with
  | [] => ([], y)
  | widget :: rest =>
      let span := getRowSpan widget in
      let size := inject_Z span * rowSize + inject_Z (span - 1) * inject_Z rowSpacing in
      let limits := sizeLimits widget in
      let w := Math.max (minWidth limits) (Math.min colSize (maxWidth limits)) in
      let h := Math.max (minHeight limits) (Math.min size (maxHeight limits)) in
      let call := SetOffsetGeometry (wid widget) (Build_Rect left y w h) in
      let '(calls, y') :=
        singleColLoop left colSize rowSize rowSpacing rest
          (y + (size + inject_Z rowSpacing)) in
      (call :: calls, y')
  end.

(** The column and span the grid branch uses for a widget: the source's
    locals [adjCol] and [adjColSpan]. *)
Definition adjCol (maxCol : Z) (widget : Widget) : Z :=
  Z.min (getColumn widget) maxCol.

Definition adjColSpan (maxCol : Z) (widget : Widget) : Z :=
  Z.min (getColumnSpan widget) (maxCol - adjCol maxCol widget + 1).

(** The width and height the grid branch computes before it applies the
    widget's limits: the source's [w] and [h] at their first assignment. *)
Definition gridWidth (colSize : Q) (colSpacing maxCol : Z) (widget : Widget) : Q :=
  inject_Z (adjColSpan maxCol widget) * colSize
  + inject_Z (getColumnSpan widget - 1) * inject_Z colSpacing.

Definition gridHeight (rowSize : Q) (rowSpacing : Z) (widget : Widget) : Q :=
  inject_Z (getRowSpan widget) * rowSize
  + inject_Z (getRowSpan widget - 1) * inject_Z rowSpacing.

(** The rectangle the grid branch assigns to one widget. *)
Definition gridRect (left top colSize rowSize : Q)
    (rowSpacing colSpacing maxCol : Z) (widget : Widget) : Rect :=
  let row := getRow widget in
  let y := inject_Z row * (rowSize + inject_Z rowSpacing) in
  let h := gridHeight rowSize rowSpacing widget in
  let x := inject_Z (adjCol maxCol widget) * (colSize + inject_Z colSpacing) in
  let w := gridWidth colSize colSpacing maxCol widget in
  let limits := sizeLimits widget in
  let w := Math.max (minWidth limits) (Math.min w (maxWidth limits)) in
  let h := Math.max (minHeight limits) (Math.min h (maxHeight limits)) in
  Build_Rect (left + x) (top + y) w h.

(** The loop of the grid branch, from [maxRow]; it returns the
    [setOffsetGeometry] calls in order and the final [maxRow]. *)
Fixpoint gridLoop (left top colSize rowSize : Q)
    (rowSpacing colSpacing maxCol : Z)
    (children : list Widget) (maxRow : Z) : list Effect * Z :=
  match children with
  | [] => ([], maxRow)
  | widget :: rest =>
      let row := getRow widget in
      let rowSpan := getRowSpan widget in
      let maxRow := Z.max maxRow (row + rowSpan - 1) in
      let call :=
        SetOffsetGeometry (wid widget)
          (gridRect left top colSize rowSize rowSpacing colSpacing maxCol widget) in
      let '(calls, maxRow') :=
        gridLoop left top colSize rowSize rowSpacing colSpacing maxCol rest maxRow in
      (call :: calls, maxRow')
  end.

Definition _layoutChildren (this : DashboardPanel) (offsetWidth offsetHeight : Q)
    : list Effect :=
  if (length (children this) =? 0)%nat then []
  else
    let box := boxSizing this in
    let top := paddingTop box in
    let left := paddingLeft box in
    let width := offsetWidth - horizontalSum box in
    let data := _layoutData this width in
    if singleCol data then
      let y := top in
      let rowSpacing := rowSpacing this in
      let children := sort widgetCmp (children this) in
      let '(calls, y) :=
        singleColLoop left (colSize data) (rowSize data) rowSpacing children y in
      calls ++ [SetSizerHeight y]
    else
      let maxRow := 0%Z in
      let maxCol := (columnCount this - 1)%Z in
      let rowSpacing := rowSpacing this in
      let colSpacing := columnSpacing this in
      let '(calls, maxRow) :=
        gridLoop left top (colSize data) (rowSize data) rowSpacing colSpacing
          maxCol (children this) maxRow in
      let th := inject_Z (maxRow + 1) * rowSize data
                + inject_Z maxRow * inject_Z rowSpacing in
      calls ++ [SetSizerHeight (th + verticalSum box)].

(** ** The outside world a pass acts on *)

(** The offset geometry of each widget and the height of the sizer
    element; both survive from one pass to the next. *)
Record Dom := {
  geometry : gmap nat Rect;
  sizerHeight : option Q
}.

Definition perform (d : Dom) (e : Effect) : Dom :=
  match e with
  | SetOffsetGeometry w r =>
      {| geometry := <[w := r]> (geometry d); sizerHeight := sizerHeight d |}
  | SetSizerHeight h =>
      {| geometry := geometry d; sizerHeight := Some h |}
  end.

Definition run (es : list Effect) (d : Dom) : Dom := fold_left perform es d.

(** The rectangle a sequence of effects leaves on widget [k]: that of the
    last call that addresses it. *)
Fixpoint assigned (es : list Effect) (k : nat) : option Rect :=
  match es with
  | [] => None
  | e :: es' =>
      match assigned es' k with
      | Some r => Some r
      | None =>
          match e with
          | SetOffsetGeometry w r => if (w =? k)%nat then Some r else None
          | SetSizerHeight _ => None
          end
      end
  end.

(** ** Vocabulary of the specification *)

(** [clamp(v, lo, hi)]: [v] held between [lo] and [hi], the minimum taking
    precedence when the two bounds conflict. *)
Definition clamp (v lo : Q) (hi : number) : Q :=
  if Qltb v lo then lo
  else match hi with
       | Infinity => v
       | Fin h => if Qltb h lo then lo else if Qltb h v then h else v
       end.

(** The height of the slot of a widget that spans [rowSpan] rows. *)
Definition slot (rowSize : Q) (rowSpacing : Z) (w : Widget) : Q :=
  inject_Z (getRowSpan w) * rowSize
  + (inject_Z (getRowSpan w) - 1) * inject_Z rowSpacing.

Definition Qsum {A} (f : A -> Q) (l : list A) : Q :=
  fold_right (fun a acc => f a + acc) 0 l.

(** Ascending (row, then column) order of the declared placement. *)
Definition placement_le (a b : Widget) : Prop :=
  (getRow a < getRow b)%Z
  \/ (getRow a = getRow b /\ (getColumn a <= getColumn b)%Z).

(** The widgets the [setOffsetGeometry] calls of a pass address, in order. *)
Definition targets (es : list Effect) : list nat :=
  flat_map (fun e => match e with
                     | SetOffsetGeometry w _ => [w]
                     | SetSizerHeight _ => []
                     end) es.

(** The extent a pass writes to the sizer, if it writes one. *)
Definition extent (es : list Effect) : option Q :=
  fold_left (fun acc e => match e with
                          | SetSizerHeight h => Some h
                          | SetOffsetGeometry _ _ => acc
                          end) es None.

(** The maximum occupied row index of a list of widgets, at least 0. *)
Definition maxRowOf (l : list Widget) : Z :=
  fold_right (fun w m => Z.max (getRow w + getRowSpan w - 1) m) 0%Z l.

(** The inner width the pass derives the layout data from. *)
Definition innerWidth (this : DashboardPanel) (offsetWidth : Q) : Q :=
  offsetWidth - horizontalSum (boxSizing this).

(** The coercion as the specification words it: the written value is
    clamped to the bound of the field, and an integer field truncates toward
    zero after clamping. *)
Definition spec_coerce (f : Field.t) (v : number) : number :=
  match Field.int_bound f with
  | Some b =>
      match v with
      | Fin q => Fin (inject_Z (Qtrunc (Qmax (inject_Z b) q)))
      | Infinity => Infinity
      end
  | None => Math.max_number 0 v
  end.

(** A legal value of a field: an integer not below the bound (and a signed
    32-bit one) for an integer field, a number not below 0 for the others. *)
Definition legal (f : Field.t) (v : number) : Prop :=
  match Field.int_bound f with
  | Some b => exists z, v = Fin (inject_Z z) /\ (b <= z < 2 ^ 31)%Z
  | None => match v with Fin q => (0 <= q)%Q | Infinity => True end
  end.

(** A store that holds legal values only. *)
Definition store_ok (s : gmap (nat * nat) number) : Prop :=
  forall f o v, s !! (o, Property.pid (Field.descriptor f)) = Some v -> legal f v.

(** The layout data of a pass at a given offset width. *)
Definition dataOf (this : DashboardPanel) (offsetWidth : Q) : ILayoutData :=
  _layoutData this (innerWidth this offsetWidth).

(** The rectangle a grid-mode pass assigns to a child. *)
Definition gridRectOf (this : DashboardPanel) (offsetWidth : Q) (w : Widget) : Rect :=
  gridRect (paddingLeft (boxSizing this)) (paddingTop (boxSizing this))
    (colSize (dataOf this offsetWidth)) (rowSize (dataOf this offsetWidth))
    (rowSpacing this) (columnSpacing this) (columnCount this - 1) w.

(** The cursor of the single-column loop after the widgets of [l], from
    cursor [y]. *)
Definition cursorAfter (rowSize : Q) (rowSpacing : Z) (l : list Widget) (y : Q) : Q :=
  fold_left
    (fun y w =>
       y + (inject_Z (getRowSpan w) * rowSize
            + inject_Z (getRowSpan w - 1) * inject_Z rowSpacing
            + inject_Z rowSpacing))
    l y.

(** The rectangle the single-column branch assigns to a widget at cursor
    [y]. *)
Definition singleColRect (left colSize rowSize : Q) (rowSpacing : Z)
    (y : Q) (w : Widget) : Rect :=
  {| rect_left := left;
     rect_top := y;
     rect_width :=
       Math.max (minWidth (sizeLimits w)) (Math.min colSize (maxWidth (sizeLimits w)));
     rect_height :=
       Math.max (minHeight (sizeLimits w))
         (Math.min (inject_Z (getRowSpan w) * rowSize
                    + inject_Z (getRowSpan w - 1) * inject_Z rowSpacing)
            (maxHeight (sizeLimits w))) |}.

(** What coercion at write time guarantees of the values a pass reads. *)
Definition panel_ok (this : DashboardPanel) : Prop :=
  (1 <= columnCount this)%Z /\ (0 <= rowSpacing this)%Z
  /\ (0 <= columnSpacing this)%Z /\ 0 <= aspectRatio this
  /\ 0 <= minRowSize this /\ 0 <= minColumnSize this.

Definition widget_ok (w : Widget) : Prop :=
  (0 <= getRow w)%Z /\ (0 <= getColumn w)%Z
  /\ (1 <= getRowSpan w)%Z /\ (1 <= getColumnSpan w)%Z.

(** The order in which a pass visits the children. *)
Definition visitOrder (this : DashboardPanel) (offsetWidth : Q) : list Widget :=
  if singleCol (dataOf this offsetWidth) then sort widgetCmp (children this)
  else children this.

(** The same panel with other children. *)
Definition withChildren (this : DashboardPanel) (ws : list Widget) : DashboardPanel :=
  {| aspectRatio := aspectRatio this; columnCount := columnCount this;
     minRowSize := minRowSize this; minColumnSize := minColumnSize this;
     maxRowSize := maxRowSize this; maxColumnSize := maxColumnSize this;
     rowSpacing := rowSpacing this; columnSpacing := columnSpacing this;
     boxSizing := boxSizing this; children := ws |}.

(** Two widgets that differ at most in their size limits. *)
Definition same_placement (a b : Widget) : Prop :=
  wid a = wid b /\ getRow a = getRow b /\ getColumn a = getColumn b
  /\ getRowSpan a = getRowSpan b /\ getColumnSpan a = getColumnSpan b.

(** The widget and the origin of each [setOffsetGeometry] call, in order. *)
Definition positions (es : list Effect) : list (nat * Q * Q) :=
  flat_map (fun e => match e with
                     | SetOffsetGeometry w r => [(w, rect_left r, rect_top r)]
                     | SetSizerHeight _ => []
                     end) es.

(** ** Example data *)

(** The default size limits of a widget: none. *)
Definition noLimits : SizeLimits :=
  {| minWidth := 0; minHeight := 0; maxWidth := Infinity; maxHeight := Infinity |}.

Definition noBox : BoxSizing :=
  {| paddingTop := 0; paddingLeft := 0; horizontalSum := 0; verticalSum := 0 |}.

Definition mkWidget (id : nat) (row column rowSpan columnSpan : Z) : Widget :=
  {| wid := id; getRow := row; getColumn := column; getRowSpan := rowSpan;
     getColumnSpan := columnSpan; sizeLimits := noLimits |}.

(** A panel with every property at its default value. *)
Definition defaultPanel (ws : list Widget) : DashboardPanel :=
  {| aspectRatio := 1; columnCount := 12; minRowSize := 50; minColumnSize := 50;
     maxRowSize := Infinity; maxColumnSize := Infinity;
     rowSpacing := 8; columnSpacing := 8; boxSizing := noBox; children := ws |}.


(** A widget whose own minimum height is 200. *)
Definition tallWidget : Widget :=
  {| wid := 0; getRow := 0; getColumn := 0; getRowSpan := 1; getColumnSpan := 1;
     sizeLimits := {| minWidth := 0; minHeight := 200;
                      maxWidth := Infinity; maxHeight := Infinity |} |}.

(** Three widgets declared at (1,0), (0,5) and (0,1). *)
Definition threeWidgets : list Widget :=
  [mkWidget 0 1 0 1 1; mkWidget 1 0 5 1 1; mkWidget 2 0 1 1 1].

(** The panels of the worked examples, every property at its default. *)
Definition spanPanel : DashboardPanel := defaultPanel [mkWidget 0 2 10 3 5].
Definition overflowPanel : DashboardPanel := defaultPanel [mkWidget 0 0 10 1 5].
Definition stackPanel : DashboardPanel := defaultPanel threeWidgets.
Definition onePanel : DashboardPanel := defaultPanel [mkWidget 0 0 0 1 1].
Definition rowsPanel : DashboardPanel := defaultPanel [mkWidget 0 2 0 3 1].
Definition overlapPanel : DashboardPanel :=
  defaultPanel [tallWidget; mkWidget 1 1 0 1 1].

(** The geometry and sizer before any pass. *)
Definition emptyDom : Dom := {| geometry := ∅; sizerHeight := None |}.

(** The extent of the single-column mode if no spacing followed the last
    child. *)
Definition extentNoTrailing (this : DashboardPanel) (ow : Q) : Q :=
  paddingTop (boxSizing this)
  + Qsum (slot (rowSize (dataOf this ow)) (rowSpacing this)) (children this)
  + (inject_Z (Z.of_nat (length (children this))) - 1) * inject_Z (rowSpacing this).

(** ** The message handlers *)

(** A width and a height: the fields the handlers read of a
    [ResizeMessage] and of [this.offsetRect]. *)
Record Size := {
  width : Q;
  height : Q
}.

(** The state of the panel as a widget that the handlers read. *)
Record Host := {
  isVisible : bool;
  isAttached : bool;
  offsetRect : Size;
  parent : option nat
}.

(** What a handler does, in order. *)
Inductive Action :=
  | Perform (e : Effect)                            (* an effect of the layout pass *)
  | SetSizeLimits (minW minH : Q) (maxW maxH : number) (* this.setSizeLimits(..) *)
  | SendLayoutRequest (target : nat)   (* sendMessage(parent, MSG_LAYOUT_REQUEST) *)
  | Update (immediate : bool).                      (* this.update(immediate) *)

(** [v + q] where [v] may be [Infinity]. *)
Definition number_add (v : number) (q : Q) : number :=
  match v with
  | Fin x => Fin (x + q)
  | Infinity => Infinity
  end.

Definition _setupGeometry (this : DashboardPanel) (host : Host) : list Action :=
  let minW := minColumnSize this in
  let minH := minRowSize this in
  let maxW := Infinity in
  let maxH := Infinity in
  let box := boxSizing this in
  let minW := minW + horizontalSum box in
  let minH := minH + verticalSum box in
  let maxW := number_add maxW (horizontalSum box) in
  let maxH := number_add maxH (verticalSum box) in
  SetSizeLimits minW minH maxW maxH
  :: match parent host with
     | Some p => [SendLayoutRequest p]
     | None => []
     end
  ++ [Update true].

Definition onResize (this : DashboardPanel) (host : Host) (msg : Size) : list Action :=
  if isVisible host then
    if Qltb (width msg) 0 || Qltb (height msg) 0 then
      let rect := offsetRect host in
      map Perform (_layoutChildren this (width rect) (height rect))
    else
      map Perform (_layoutChildren this (width msg) (height msg))
  else [].

Definition onUpdateRequest (this : DashboardPanel) (host : Host) : list Action :=
  if isVisible host then
    let rect := offsetRect host in
    map Perform (_layoutChildren this (width rect) (height rect))
  else [].

Definition onLayoutRequest (this : DashboardPanel) (host : Host) : list Action :=
  if isAttached host then _setupGeometry this host else [].

(** ** Further vocabulary *)

(** The sort key of a widget. *)
Definition placementKey (w : Widget) : Z * Z := (getRow w, getColumn w).



(** The default panel with other row settings: aspect ratio 2, rows between
    10 and 20, no row spacing. *)
Definition ratioPanel : DashboardPanel :=
  {| aspectRatio := 2; columnCount := 12; minRowSize := 10; minColumnSize := 50;
     maxRowSize := Fin 20; maxColumnSize := Infinity;
     rowSpacing := 0; columnSpacing := 8; boxSizing := noBox;
     children := threeWidgets |}.

Definition shownHost : Host :=
  {| isVisible := true; isAttached := true;
     offsetRect := {| width := 1288; height := 600 |}; parent := Some 9%nat |}.

(** ** The box sizing from the edges of the node *)

Definition boxSizingOf (e : BoxEdges) : BoxSizing :=
  {| paddingTop := edgePaddingTop e;
     paddingLeft := edgePaddingLeft e;
     horizontalSum :=
       borderLeft e + edgePaddingLeft e + edgePaddingRight e + borderRight e;
     verticalSum :=
       borderTop e + edgePaddingTop e + edgePaddingBottom e + borderBottom e |}.

(** The vertical padding of the panel, without its border. *)
Definition verticalPadding (e : BoxEdges) : Q :=
  edgePaddingTop e + edgePaddingBottom e.

(** A node with a border of 3 and 4 and a padding of 3 and 4 pixels at the
    top and at the bottom, and the default panel in it with one child at
    row 2 that spans 3 rows. *)
Definition borderedEdges : BoxEdges :=
  {| borderTop := 3; borderLeft := 0; borderRight := 0; borderBottom := 4;
     edgePaddingTop := 3; edgePaddingLeft := 0; edgePaddingRight := 0;
     edgePaddingBottom := 4 |}.

Definition borderedPanel : DashboardPanel :=
  {| aspectRatio := 1; columnCount := 12; minRowSize := 50; minColumnSize := 50;
     maxRowSize := Infinity; maxColumnSize := Infinity;
     rowSpacing := 8; columnSpacing := 8;
     boxSizing := boxSizingOf borderedEdges;
     children := [mkWidget 0 2 0 3 1] |}.

(** ** The descriptors over every JavaScript number *)

Module Js.

(** A value a caller can write to a property: [NaN], [-Infinity], or a
    [number] (a finite one or [Infinity]). *)
Inductive t :=
  | NaN
  | NegInfinity
  | Num (v : number).

(** [Math.max(a, value)] for a finite [a]: [NaN] if the value is [NaN],
    else the larger of the two. *)
Definition max (a : Q) (value : t) : t :=
  match value with
  | NaN => NaN
  | NegInfinity => Num (Fin a)
  | Num v => Num (Math.max_number a v)
  end.

(** [value | 0]: ToInt32 takes [NaN] and both infinities to 0. *)
Definition ToInt32 (value : t) : Z :=
  match value with
  | Num v => ToInt32 v
  | NaN | NegInfinity => 0%Z
  end.

(** Modelled from the spec: a descriptor of phosphor-properties, an external
    package, holds a default [value], a [coerce] function and a [changed]
    callback. *)
Record property := Build {
  pid : nat;
  value : t;
  coerce : t -> t;
  changed : ChangedHandler
}.

Definition aspectRatioProperty : property :=
  Build 0 (Num (Fin 1)) (fun value => max 0 value) OwnerUpdate.

Definition columnCountProperty : property :=
  Build 1 (Num (Fin 12))
    (fun value => Num (Fin (inject_Z (Z.max 1 (ToInt32 value))))) PostLayoutRequest.

Definition minRowSizeProperty : property :=
  Build 2 (Num (Fin 50)) (fun value => max 0 value) OwnerUpdate.

Definition minColumnSizeProperty : property :=
  Build 3 (Num (Fin 50)) (fun value => max 0 value) PostLayoutRequest.

Definition maxRowSizeProperty : property :=
  Build 4 (Num Infinity) (fun value => max 0 value) OwnerUpdate.

Definition maxColumnSizeProperty : property :=
  Build 5 (Num Infinity) (fun value => max 0 value) PostLayoutRequest.

Definition rowSpacingProperty : property :=
  Build 6 (Num (Fin 8))
    (fun value => Num (Fin (inject_Z (Z.max 0 (ToInt32 value))))) OwnerUpdate.

Definition columnSpacingProperty : property :=
  Build 7 (Num (Fin 8))
    (fun value => Num (Fin (inject_Z (Z.max 0 (ToInt32 value))))) PostLayoutRequest.

Definition rowProperty : property :=
  Build 8 (Num (Fin 0))
    (fun value => Num (Fin (inject_Z (Z.max 0 (ToInt32 value))))) OnWidgetChanged.

Definition columnProperty : property :=
  Build 9 (Num (Fin 0))
    (fun value => Num (Fin (inject_Z (Z.max 0 (ToInt32 value))))) OnWidgetChanged.

Definition rowSpanProperty : property :=
  Build 10 (Num (Fin 1))
    (fun value => Num (Fin (inject_Z (Z.max 1 (ToInt32 value))))) OnWidgetChanged.

Definition columnSpanProperty : property :=
  Build 11 (Num (Fin 1))
    (fun value => Num (Fin (inject_Z (Z.max 1 (ToInt32 value))))) OnWidgetChanged.

Definition descriptor (f : Field.t) : property :=
  match f with
  | Field.aspectRatio => aspectRatioProperty
  | Field.columnCount => columnCountProperty
  | Field.minRowSize => minRowSizeProperty
  | Field.minColumnSize => minColumnSizeProperty
  | Field.maxRowSize => maxRowSizeProperty
  | Field.maxColumnSize => maxColumnSizeProperty
  | Field.rowSpacing => rowSpacingProperty
  | Field.columnSpacing => columnSpacingProperty
  | Field.row => rowProperty
  | Field.column => columnProperty
  | Field.rowSpan => rowSpanProperty
  | Field.columnSpan => columnSpanProperty
  end.

(** Modelled from the spec: [get] returns the current value, or the default
    of the descriptor if the property was never set on the owner. *)
Definition get (p : property) (o : nat) (s : gmap (nat * nat) t) : t :=
  default (value p) (s !! (o, pid p)).

(** Modelled from the spec: [set] applies the coercion of the descriptor and
    stores the coerced value.  (The notification of a change is left out
    here.) *)
Definition set (p : property) (o : nat) (v : t) (s : gmap (nat * nat) t)
  : gmap (nat * nat) t :=
  <[(o, pid p) := coerce p v]> s.

(** A legal value of a field; [NaN] and [-Infinity] are legal for none. *)
Definition legal (f : Field.t) (v : t) : Prop :=
  match v with
  | Num x => legal f x
  | NaN | NegInfinity => False
  end.

(** The round trip as the specification words it: whatever is written, the
    value read back is a legal one, and for a written number it is that
    number clamped to the bound of the field, truncated toward zero after
    clamping for an integer field. *)
Definition spec_round_trip : Prop :=
  forall (f : Field.t) (o : nat) (v : t) (s : gmap (nat * nat) t),
    legal f (get (descriptor f) o (set (descriptor f) o v s))
    /\ forall x, v = Num x ->
         get (descriptor f) o (set (descriptor f) o v s) = Num (spec_coerce f x).

(** A sequence of property writes, applied in order. *)
Definition writeAll (ws : list (Field.t * nat * t)) (s : gmap (nat * nat) t)
  : gmap (nat * nat) t :=
  fold_left (fun s w => set (descriptor (w.1.1)) (w.1.2) (w.2) s) ws s.

(** A write that cannot store [NaN]: any write to an integer field, and a
    write of anything but [NaN] to a real-valued one. *)
Definition clean (w : Field.t * nat * t) : Prop :=
  Field.int_bound (w.1.1) = None -> w.2 <> NaN.

(** A store that holds legal values only. *)
Definition store_ok (s : gmap (nat * nat) t) : Prop :=
  forall f o v, s !! (o, pid (descriptor f)) = Some v -> legal f v.

End Js.

(** ** [_layoutData] in double precision *)

Module Float64.

(** A double is a binary64 number of IEEE 754: a [spec_float] in the
    canonical form of precision 53 and maximal exponent 1024, as the
    operations below produce it; they round to nearest, ties to even. *)
Definition prec : Z := 53%Z.
Definition emax : Z := 1024%Z.

Abbreviation double := spec_float.

(** The double that holds an integer (exactly, for a 32-bit one). *)
Definition of_Z (z : Z) : double := binary_normalize prec emax z 0 false.

Definition sub (a b : double) : double := SFsub prec emax a b.
Definition mul (a b : double) : double := SFmul prec emax a b.
Definition div (a b : double) : double := SFdiv prec emax a b.

(** [a < b] and [a <= b]: false if either is [NaN]. *)
Definition ltb (a b : double) : bool := SFltb a b.
Definition leb (a b : double) : bool := SFleb a b.

(** Numeric equality, which identifies [+0] and [-0]. *)
Definition eqb (a b : double) : bool := SFeqb a b.

Definition isNaN (a : double) : bool :=
  match a with S754_nan => true | _ => false end.

(** [Math.max(a, b)]: [NaN] if either is [NaN]; [+0] is larger than [-0]. *)
Definition max (a b : double) : double :=
  match SFcompare a b with
  | None => S754_nan
  | Some Lt => b
  | Some Gt => a
  | Some Eq => match a with S754_zero true => b | _ => a end
  end.

(** [Math.min(a, b)]: [NaN] if either is [NaN]; [-0] is smaller than [+0]. *)
Definition min (a b : double) : double :=
  match SFcompare a b with
  | None => S754_nan
  | Some Lt => a
  | Some Gt => b
  | Some Eq => match a with S754_zero false => b | _ => a end
  end.

(** The panel as [_layoutData] reads it: the values its property getters
    return.  The integer-valued properties are integers of 32 bits, whatever
    was written. *)
Record DashboardPanel := {
  aspectRatio : double;
  columnCount : Z;
  minRowSize : double;
  minColumnSize : double;
  maxRowSize : double;
  maxColumnSize : double;
  columnSpacing : Z
}.

Record ILayoutData := {
  singleCol : bool;
  colSize : double;
  rowSize : double
}.

Definition _layoutData (this : DashboardPanel) (innerWidth : double) : ILayoutData :=
  let colCount := of_Z (columnCount this) in
  let fixedColSpace := mul (of_Z (columnSpacing this)) (sub colCount (of_Z 1)) in
  let idealColSize := div (sub innerWidth fixedColSpace) colCount in
  let minColSize := minColumnSize this in
  let maxColSize := maxColumnSize this in
  if ltb idealColSize minColSize then
    let colSize := max minColSize (min innerWidth maxColSize) in
    let rowSize := minRowSize this in
    {| singleCol := true; colSize := colSize; rowSize := rowSize |}
  else
    let colSize := max minColSize (min idealColSize maxColSize) in
    let minRowSize := minRowSize this in
    let maxRowSize := maxRowSize this in
    let idealRowSize := mul colSize (aspectRatio this) in
    let rowSize := max minRowSize (min idealRowSize maxRowSize) in
    {| singleCol := false; colSize := colSize; rowSize := rowSize |}.

(** The ideal column size as the source computes it. *)
Definition idealColSize (this : DashboardPanel) (innerWidth : double) : double :=
  let colCount := of_Z (columnCount this) in
  div (sub innerWidth (mul (of_Z (columnSpacing this)) (sub colCount (of_Z 1))))
    colCount.

(** [clamp(v, lo, hi)] as the source writes it. *)
Definition clamp (v lo hi : double) : double := max lo (min v hi).

(** The exact value of a double that is a number. *)
Definition toQ (x : double) : option Q :=
  match x with
  | S754_zero _ => Some 0
  | S754_finite s m e => Some (inject_Z (if s then Z.neg m else Z.pos m) * 2 ^ e)
  | S754_infinity _ | S754_nan => None
  end.

(** The mode test as the specification writes it, in exact arithmetic on
    the values of the doubles:
    [(innerWidth - columnSpacing * (columnCount - 1)) / columnCount
     < minColumnSize]. *)
Definition exactSingleCol (this : DashboardPanel) (innerWidth : double)
  : option bool :=
  match toQ innerWidth, toQ (minColumnSize this) with
  | Some w, Some m =>
      Some (Qltb ((w - inject_Z (columnSpacing this)
                       * (inject_Z (columnCount this) - 1))
                  / inject_Z (columnCount this)) m)
  | _, _ => None
  end.

(** The position of a number in the order of the doubles: sign class, then
    exponent, then mantissa; [+0] and [-0] share a position. *)
Definition ord (x : double) : Z * Z * Z :=
  match x with
  | S754_infinity true => (-2, 0, 0)%Z
  | S754_finite true m e => (-1, - e, Z.neg m)%Z
  | S754_zero _ | S754_nan => (0, 0, 0)%Z
  | S754_finite false m e => (1, e, Z.pos m)%Z
  | S754_infinity false => (2, 0, 0)%Z
  end.

Definition lexcmp (x y : Z * Z * Z) : comparison :=
  match (x.1.1 ?= y.1.1)%Z with
  | Eq => match (x.1.2 ?= y.1.2)%Z with
          | Eq => (x.2 ?= y.2)%Z
          | c => c
          end
  | c => c
  end.

Definition lexle (x y : Z * Z * Z) : Prop :=
  (x.1.1 < y.1.1
   \/ (x.1.1 = y.1.1
       /\ (x.1.2 < y.1.2 \/ (x.1.2 = y.1.2 /\ x.2 <= y.2))))%Z.

Definition lexlt (x y : Z * Z * Z) : Prop :=
  (x.1.1 < y.1.1
   \/ (x.1.1 = y.1.1
       /\ (x.1.2 < y.1.2 \/ (x.1.2 = y.1.2 /\ x.2 < y.2))))%Z.

(** The default column settings, every bound a double. *)
Definition defaultPanel : DashboardPanel :=
  {| aspectRatio := of_Z 1; columnCount := 12; minRowSize := of_Z 50;
     minColumnSize := of_Z 50; maxRowSize := S754_infinity false;
     maxColumnSize := S754_infinity false; columnSpacing := 8 |}.

(** Three columns without spacing, none narrower than the double nearest
    to 5/3. *)
Definition thirdsPanel : DashboardPanel :=
  {| aspectRatio := of_Z 1; columnCount := 3; minRowSize := of_Z 50;
     minColumnSize := div (of_Z 5) (of_Z 3); maxRowSize := S754_infinity false;
     maxColumnSize := S754_infinity false; columnSpacing := 0 |}.

(** One column of any width and an infinite aspect ratio. *)
Definition steepPanel : DashboardPanel :=
  {| aspectRatio := S754_infinity false; columnCount := 1; minRowSize := of_Z 50;
     minColumnSize := of_Z 0; maxRowSize := S754_infinity false;
     maxColumnSize := S754_infinity false; columnSpacing := 0 |}.

End Float64.

(** ** Facts about numbers *)

Lemma Qltb_lt (a b : Q) : Qltb a b = true <-> a < b.
Proof.
  unfold Qltb. rewrite Qlt_alt. destruct (a ?= b); split; congruence.
Qed.

Lemma Qltb_ge (a b : Q) : Qltb a b = false <-> b <= a.
Proof.
  rewrite <- Bool.not_true_iff_false, Qltb_lt. split; intros H.
  - apply Qnot_lt_le, H.
  - apply Qle_not_lt, H.
Qed.

Lemma Math_max_cases (a b : Q) :
  (a < b /\ Math.max a b = b) \/ (b <= a /\ Math.max a b = a).
Proof.
  unfold Math.max, Qmax, GenericMinMax.gmax.
  destruct (a ?= b) eqn:E.
  - right. split; [apply Qeq_alt in E; rewrite E; apply Qle_refl | reflexivity].
  - left. split; [apply Qlt_alt, E | reflexivity].
  - right. split; [apply Qlt_le_weak, Qgt_alt, E | reflexivity].
Qed.





Lemma clamp_conflict (v lo h : Q) : h < lo -> clamp v lo (Fin h) == lo.
Proof.
  unfold clamp. intros H. destruct (Qltb v lo) eqn:E1; [lra|].
  apply Qltb_lt in H. rewrite H. lra.
Qed.

Lemma inject_Z_le (a b : Z) : (a <= b)%Z -> inject_Z a <= inject_Z b.
Proof. intros H. rewrite <- Zle_Qle. exact H. Qed.

Lemma inject_Z_pred (z : Z) : inject_Z (z - 1) == inject_Z z - 1.
Proof. unfold Z.sub. rewrite inject_Z_plus. reflexivity. Qed.

(** ** The layout-data derivation *)






(** ** The layout data in double precision *)

Lemma lexcmp_Lt (x y : Z * Z * Z) : Float64.lexcmp x y = Lt <-> Float64.lexlt x y.
Proof.
  destruct x as [[x1 x2] x3], y as [[y1 y2] y3].
  unfold Float64.lexcmp, Float64.lexlt. simpl.
  destruct (Z.compare_spec x1 y1); destruct (Z.compare_spec x2 y2);
    destruct (Z.compare_spec x3 y3); split; intros ?; first [lia | discriminate | reflexivity].
Qed.

Lemma lexcmp_Eq (x y : Z * Z * Z) :
  Float64.lexcmp x y = Eq <-> Float64.lexle x y /\ Float64.lexle y x.
Proof.
  destruct x as [[x1 x2] x3], y as [[y1 y2] y3].
  unfold Float64.lexcmp, Float64.lexle. simpl.
  destruct (Z.compare_spec x1 y1); destruct (Z.compare_spec x2 y2);
    destruct (Z.compare_spec x3 y3); split; intros ?; first [lia | discriminate | reflexivity].
Qed.

Lemma lexcmp_Gt (x y : Z * Z * Z) : Float64.lexcmp x y = Gt <-> Float64.lexlt y x.
Proof.
  destruct x as [[x1 x2] x3], y as [[y1 y2] y3].
  unfold Float64.lexcmp, Float64.lexlt. simpl.
  destruct (Z.compare_spec x1 y1); destruct (Z.compare_spec x2 y2);
    destruct (Z.compare_spec x3 y3); split; intros ?; first [lia | discriminate | reflexivity].
Qed.

(** The comparison of two numbers is the comparison of their positions. *)
Lemma SFcompare_ord (a b : spec_float) :
  Float64.isNaN a = false -> Float64.isNaN b = false ->
  SFcompare a b = Some (Float64.lexcmp (Float64.ord a) (Float64.ord b)).
Proof.
  intros Ha Hb.
  destruct a as [sa|sa| |sa ma ea]; try discriminate Ha;
    destruct b as [sb|sb| |sb mb eb]; try discriminate Hb;
    try destruct sa; try destruct sb; try reflexivity.
  unfold Float64.lexcmp; simpl. rewrite Z.compare_opp.
  rewrite (Z.compare_antisym ea eb). destruct (ea ?= eb)%Z; reflexivity.
Qed.

Lemma double_ltb_ord (a b : spec_float) :
  Float64.isNaN a = false -> Float64.isNaN b = false ->
  Float64.ltb a b = true <-> Float64.lexlt (Float64.ord a) (Float64.ord b).
Proof.
  intros Ha Hb. unfold Float64.ltb, SFltb. rewrite (SFcompare_ord a b Ha Hb).
  rewrite <- lexcmp_Lt.
  destruct (Float64.lexcmp _ _); split; intros H; first [reflexivity|discriminate H].
Qed.

Lemma double_leb_ord (a b : spec_float) :
  Float64.isNaN a = false -> Float64.isNaN b = false ->
  Float64.leb a b = true <-> Float64.lexle (Float64.ord a) (Float64.ord b).
Proof.
  intros Ha Hb. unfold Float64.leb, SFleb. rewrite (SFcompare_ord a b Ha Hb).
  pose proof (lexcmp_Lt (Float64.ord a) (Float64.ord b)) as HL.
  pose proof (lexcmp_Eq (Float64.ord a) (Float64.ord b)) as HE.
  pose proof (lexcmp_Gt (Float64.ord a) (Float64.ord b)) as HG.
  destruct (Float64.ord a) as [[a1 a2] a3], (Float64.ord b) as [[b1 b2] b3].
  unfold Float64.lexle, Float64.lexlt in *. simpl in *.
  destruct (Float64.lexcmp _ _); split; intros H.
  - apply HE. reflexivity.
  - reflexivity.
  - pose proof (proj1 HL eq_refl). lia.
  - reflexivity.
  - discriminate H.
  - pose proof (proj1 HG eq_refl). lia.
Qed.

Lemma double_eqb_ord (a b : spec_float) :
  Float64.isNaN a = false -> Float64.isNaN b = false ->
  Float64.eqb a b = true
  <-> Float64.lexle (Float64.ord a) (Float64.ord b)
      /\ Float64.lexle (Float64.ord b) (Float64.ord a).
Proof.
  intros Ha Hb. unfold Float64.eqb, SFeqb. rewrite (SFcompare_ord a b Ha Hb).
  rewrite <- lexcmp_Eq.
  destruct (Float64.lexcmp _ _); split; intros H; first [reflexivity|discriminate H].
Qed.

(** [Math.max] and [Math.min] return one of their arguments, the larger
    and the smaller one, and [NaN] exactly if one of them is [NaN]. *)
Lemma double_max_spec (a b : spec_float) :
  Float64.isNaN a = false -> Float64.isNaN b = false ->
  (Float64.max a b = a /\ Float64.lexle (Float64.ord b) (Float64.ord a))
  \/ (Float64.max a b = b /\ Float64.lexle (Float64.ord a) (Float64.ord b)).
Proof.
  intros Ha Hb. unfold Float64.max. rewrite (SFcompare_ord a b Ha Hb).
  pose proof (lexcmp_Lt (Float64.ord a) (Float64.ord b)) as HL.
  pose proof (lexcmp_Eq (Float64.ord a) (Float64.ord b)) as HE.
  pose proof (lexcmp_Gt (Float64.ord a) (Float64.ord b)) as HG.
  destruct (Float64.lexcmp _ _).
  - destruct (proj1 HE eq_refl) as [H1 H2].
    destruct a as [[|]| | |]; first [left; split; [reflexivity|exact H2]
                                    |right; split; [reflexivity|exact H1]].
  - right. split; [reflexivity|].
    pose proof (proj1 HL eq_refl) as H. unfold Float64.lexle, Float64.lexlt in *. lia.
  - left. split; [reflexivity|].
    pose proof (proj1 HG eq_refl) as H. unfold Float64.lexle, Float64.lexlt in *. lia.
Qed.

Lemma double_min_spec (a b : spec_float) :
  Float64.isNaN a = false -> Float64.isNaN b = false ->
  (Float64.min a b = a /\ Float64.lexle (Float64.ord a) (Float64.ord b))
  \/ (Float64.min a b = b /\ Float64.lexle (Float64.ord b) (Float64.ord a)).
Proof.
  intros Ha Hb. unfold Float64.min. rewrite (SFcompare_ord a b Ha Hb).
  pose proof (lexcmp_Lt (Float64.ord a) (Float64.ord b)) as HL.
  pose proof (lexcmp_Eq (Float64.ord a) (Float64.ord b)) as HE.
  pose proof (lexcmp_Gt (Float64.ord a) (Float64.ord b)) as HG.
  destruct (Float64.lexcmp _ _).
  - destruct (proj1 HE eq_refl) as [H1 H2].
    destruct a as [[|]| | |]; first [left; split; [reflexivity|exact H1]
                                    |right; split; [reflexivity|exact H2]].
  - left. split; [reflexivity|].
    pose proof (proj1 HL eq_refl) as H. unfold Float64.lexle, Float64.lexlt in *. lia.
  - right. split; [reflexivity|].
    pose proof (proj1 HG eq_refl) as H. unfold Float64.lexle, Float64.lexlt in *. lia.
Qed.

Lemma SFcompare_nan (a b : spec_float) :
  SFcompare a b = None <-> Float64.isNaN a = true \/ Float64.isNaN b = true.
Proof.
  destruct a as [sa|sa| |sa ma ea], b as [sb|sb| |sb mb eb]; simpl;
    split; intros H; first [reflexivity | discriminate H | tauto
                           | destruct H as [H|H]; discriminate H].
Qed.

Lemma double_max_nan (a b : spec_float) :
  Float64.isNaN (Float64.max a b) = true
  <-> Float64.isNaN a = true \/ Float64.isNaN b = true.
Proof.
  destruct (Float64.isNaN a) eqn:Ha; [|destruct (Float64.isNaN b) eqn:Hb].
  - unfold Float64.max. rewrite (proj2 (SFcompare_nan a b)) by (left; exact Ha).
    split; [left; reflexivity|reflexivity].
  - unfold Float64.max. rewrite (proj2 (SFcompare_nan a b)) by (right; exact Hb).
    split; [right; reflexivity|reflexivity].
  - destruct (double_max_spec a b Ha Hb) as [[-> _]|[-> _]];
      [rewrite Ha|rewrite Hb]; split; intros H; first [discriminate H
                                                    |destruct H as [H|H]; discriminate H].
Qed.

Lemma double_min_nan (a b : spec_float) :
  Float64.isNaN (Float64.min a b) = true
  <-> Float64.isNaN a = true \/ Float64.isNaN b = true.
Proof.
  destruct (Float64.isNaN a) eqn:Ha; [|destruct (Float64.isNaN b) eqn:Hb].
  - unfold Float64.min. rewrite (proj2 (SFcompare_nan a b)) by (left; exact Ha).
    split; [left; reflexivity|reflexivity].
  - unfold Float64.min. rewrite (proj2 (SFcompare_nan a b)) by (right; exact Hb).
    split; [right; reflexivity|reflexivity].
  - destruct (double_min_spec a b Ha Hb) as [[-> _]|[-> _]];
      [rewrite Ha|rewrite Hb]; split; intros H; first [discriminate H
                                                    |destruct H as [H|H]; discriminate H].
Qed.

(** The clamp of the source, on numbers and on [NaN]. *)
Lemma double_clamp_nan (v lo hi : spec_float) :
  Float64.isNaN (Float64.clamp v lo hi) = true
  <-> Float64.isNaN v = true \/ Float64.isNaN lo = true \/ Float64.isNaN hi = true.
Proof. unfold Float64.clamp. rewrite double_max_nan, double_min_nan. tauto. Qed.

Lemma double_clamp_number (v lo hi : spec_float) :
  Float64.isNaN (Float64.clamp v lo hi) = false ->
  Float64.isNaN v = false /\ Float64.isNaN lo = false /\ Float64.isNaN hi = false.
Proof.
  intros H. pose proof (double_clamp_nan v lo hi) as N.
  destruct (Float64.isNaN v), (Float64.isNaN lo), (Float64.isNaN hi);
    first [ repeat split; reflexivity
          | rewrite (proj2 N) in H by tauto; discriminate H ].
Qed.

Lemma double_clamp_bounds (v lo hi : spec_float) :
  Float64.isNaN v = false -> Float64.isNaN lo = false -> Float64.isNaN hi = false ->
  Float64.isNaN (Float64.clamp v lo hi) = false
  /\ Float64.leb lo (Float64.clamp v lo hi) = true
  /\ (Float64.leb lo hi = true -> Float64.leb (Float64.clamp v lo hi) hi = true)
  /\ (Float64.ltb hi lo = true -> Float64.clamp v lo hi = lo)
  /\ (Float64.leb lo v = true -> Float64.leb v hi = true ->
      Float64.eqb (Float64.clamp v lo hi) v = true).
Proof.
  intros Hv Hlo Hhi.
  assert (Hc : Float64.isNaN (Float64.clamp v lo hi) = false).
  { pose proof (double_clamp_nan v lo hi) as N.
    destruct (Float64.isNaN (Float64.clamp v lo hi)); [|reflexivity].
    destruct (proj1 N eq_refl) as [H|[H|H]]; congruence. }
  split; [exact Hc|].
  assert (Hm : Float64.isNaN (Float64.min v hi) = false).
  { pose proof (double_min_nan v hi) as N.
    destruct (Float64.isNaN (Float64.min v hi)); [|reflexivity].
    destruct (proj1 N eq_refl) as [H|H]; congruence. }
  rewrite (double_leb_ord lo _ Hlo Hc), (double_leb_ord lo hi Hlo Hhi), (double_leb_ord _ hi Hc Hhi),
    (double_ltb_ord hi lo Hhi Hlo), (double_leb_ord lo v Hlo Hv), (double_leb_ord v hi Hv Hhi),
    (double_eqb_ord _ v Hc Hv).
  unfold Float64.clamp in *.
  destruct (double_min_spec v hi Hv Hhi) as [[E1 L1]|[E1 L1]];
    destruct (double_max_spec lo (Float64.min v hi) Hlo Hm) as [[E2 L2]|[E2 L2]];
    rewrite E2; rewrite ?E1 in *;
    destruct (Float64.ord v) as [[v1 v2] v3], (Float64.ord lo) as [[l1 l2] l3],
      (Float64.ord hi) as [[h1 h2] h3];
    unfold Float64.lexle, Float64.lexlt in *; simpl in *;
    (split; [lia|]); (split; [lia|]); (split; [intros; try reflexivity; exfalso; lia|]);
    lia.
Qed.


Lemma layoutData_double_single (this : Float64.DashboardPanel) (w : spec_float) :
  Float64.ltb (Float64.idealColSize this w) (Float64.minColumnSize this) = true ->
  Float64._layoutData this w
  = {| Float64.singleCol := true;
       Float64.colSize :=
         Float64.clamp w (Float64.minColumnSize this) (Float64.maxColumnSize this);
       Float64.rowSize := Float64.minRowSize this |}.
Proof.
  intros H. unfold Float64._layoutData. fold (Float64.idealColSize this w).
  rewrite H. reflexivity.
Qed.

Lemma layoutData_double_grid (this : Float64.DashboardPanel) (w : spec_float) :
  Float64.ltb (Float64.idealColSize this w) (Float64.minColumnSize this) = false ->
  Float64._layoutData this w
  = {| Float64.singleCol := false;
       Float64.colSize :=
         Float64.clamp (Float64.idealColSize this w) (Float64.minColumnSize this)
           (Float64.maxColumnSize this);
       Float64.rowSize :=
         Float64.clamp
           (Float64.mul
              (Float64.clamp (Float64.idealColSize this w)
                 (Float64.minColumnSize this) (Float64.maxColumnSize this))
              (Float64.aspectRatio this))
           (Float64.minRowSize this) (Float64.maxRowSize this) |}.
Proof.
  intros H. unfold Float64._layoutData. fold (Float64.idealColSize this w).
  rewrite H. reflexivity.
Qed.

Lemma double_leb_refl (a : spec_float) : Float64.isNaN a = false -> Float64.leb a a = true.
Proof.
  intros Ha. rewrite (double_leb_ord a a Ha Ha).
  destruct (Float64.ord a) as [[a1 a2] a3]. unfold Float64.lexle. simpl. lia.
Qed.

(** C1.  [_layoutData], in the arithmetic of the source.  The pass is in
    single-column mode exactly if the ideal column size
    [(innerWidth - columnSpacing * (columnCount - 1)) / columnCount], each
    operation rounded to the nearest double, is below [minColumnSize].  In
    single-column mode the column size is
    [clamp(innerWidth, minColumnSize, maxColumnSize)] and the row size is
    [minRowSize], the aspect ratio not applied; in grid mode the column
    size is [clamp(idealColSize, minColumnSize, maxColumnSize)] and the row
    size is [clamp(colSize * aspectRatio, minRowSize, maxRowSize)].  On
    numbers a clamp is never below the minimum, not above a maximum that is
    not below the minimum, the minimum itself when the maximum is below it,
    and the value itself when that lies between the two; it is [NaN]
    exactly if one of the three is.  With 12 columns,
    spacing 8 and minimum column size 50, width 687 gives single-column
    mode and width 688 grid mode. *)
Theorem layoutData_spec (this : Float64.DashboardPanel) (w : spec_float) :
  let ideal := Float64.idealColSize this w in
  let d := Float64._layoutData this w in
  (Float64.singleCol d = true
   <-> Float64.ltb ideal (Float64.minColumnSize this) = true)
  /\ (Float64.singleCol d = true ->
      Float64.colSize d
      = Float64.clamp w (Float64.minColumnSize this) (Float64.maxColumnSize this)
      /\ Float64.rowSize d = Float64.minRowSize this)
  /\ (Float64.singleCol d = false ->
      Float64.colSize d
      = Float64.clamp ideal (Float64.minColumnSize this) (Float64.maxColumnSize this)
      /\ Float64.rowSize d
         = Float64.clamp (Float64.mul (Float64.colSize d) (Float64.aspectRatio this))
             (Float64.minRowSize this) (Float64.maxRowSize this))
  /\ (forall v lo hi,
      Float64.isNaN v = false -> Float64.isNaN lo = false ->
      Float64.isNaN hi = false ->
      Float64.leb lo (Float64.clamp v lo hi) = true
      /\ (Float64.leb lo hi = true -> Float64.leb (Float64.clamp v lo hi) hi = true)
      /\ (Float64.ltb hi lo = true -> Float64.clamp v lo hi = lo)
      /\ (Float64.leb lo v = true -> Float64.leb v hi = true ->
          Float64.eqb (Float64.clamp v lo hi) v = true))
  /\ (forall v lo hi,
      Float64.isNaN (Float64.clamp v lo hi) = true
      <-> Float64.isNaN v = true \/ Float64.isNaN lo = true
          \/ Float64.isNaN hi = true)
  /\ (Float64.columnCount this = 12%Z -> Float64.columnSpacing this = 8%Z ->
      Float64.minColumnSize this = Float64.of_Z 50 ->
      Float64.singleCol (Float64._layoutData this (Float64.of_Z 687)) = true
      /\ Float64.singleCol (Float64._layoutData this (Float64.of_Z 688)) = false).
Proof.
  intros ideal d. subst ideal d.
  split; [|split; [|split; [|split; [|split]]]].
  - destruct (Float64.ltb (Float64.idealColSize this w) (Float64.minColumnSize this))
      eqn:E.
    + rewrite (layoutData_double_single this w E). simpl. tauto.
    + rewrite (layoutData_double_grid this w E). simpl.
      split; intros H; discriminate H.
  - destruct (Float64.ltb (Float64.idealColSize this w) (Float64.minColumnSize this))
      eqn:E.
    + rewrite (layoutData_double_single this w E). simpl. intros _.
      split; reflexivity.
    + rewrite (layoutData_double_grid this w E). simpl. intros H; discriminate H.
  - destruct (Float64.ltb (Float64.idealColSize this w) (Float64.minColumnSize this))
      eqn:E.
    + rewrite (layoutData_double_single this w E). simpl. intros H; discriminate H.
    + rewrite (layoutData_double_grid this w E). simpl. intros _.
      split; reflexivity.
  - intros v lo hi Hv Hlo Hhi.
    destruct (double_clamp_bounds v lo hi Hv Hlo Hhi) as (_ & H1 & H2 & H3 & H4).
    repeat split; assumption.
  - exact double_clamp_nan.
  - intros Hc Hs Hm.
    assert (E1 : Float64.ltb (Float64.idealColSize this (Float64.of_Z 687))
                   (Float64.minColumnSize this) = true).
    { unfold Float64.idealColSize. rewrite Hc, Hs, Hm. vm_compute. reflexivity. }
    assert (E2 : Float64.ltb (Float64.idealColSize this (Float64.of_Z 688))
                   (Float64.minColumnSize this) = false).
    { unfold Float64.idealColSize. rewrite Hc, Hs, Hm. vm_compute. reflexivity. }
    rewrite (layoutData_double_single this _ E1), (layoutData_double_grid this _ E2).
    split; reflexivity.
Qed.

(** The claim C1 as stated, with the quotient taken exactly, fails where
    rounding moves the quotient onto the minimum: with 3 columns, no
    spacing, a minimum column size of the double nearest to 5/3 (which is
    above 5/3) and an inner width of 5, the exact quotient 5/3 is below the
    minimum, but the quotient the source computes is that very double, not
    below the minimum, and the pass is in grid mode. *)
Lemma layoutData_spec_counterexample :
  Float64.toQ (Float64.of_Z 5) = Some (5629499534213120 * 2 ^ (-50))
  /\ Float64.toQ (Float64.minColumnSize Float64.thirdsPanel)
     = Some (7505999378950827 * 2 ^ (-52))
  /\ 5629499534213120 * 2 ^ (-50) == 5
  /\ (5 - 0 * (3 - 1)) / 3 < 7505999378950827 * 2 ^ (-52)
  /\ Float64.exactSingleCol Float64.thirdsPanel (Float64.of_Z 5) = Some true
  /\ Float64.idealColSize Float64.thirdsPanel (Float64.of_Z 5)
     = Float64.minColumnSize Float64.thirdsPanel
  /\ Float64.singleCol (Float64._layoutData Float64.thirdsPanel (Float64.of_Z 5))
     = false
  /\ ~ (forall this w b,
          Float64.exactSingleCol this w = Some b ->
          Float64.singleCol (Float64._layoutData this w) = b).
Proof.
  split; [reflexivity|]. split; [reflexivity|]. split; [reflexivity|].
  split; [reflexivity|]. split; [vm_compute; reflexivity|].
  split; [vm_compute; reflexivity|]. split; [vm_compute; reflexivity|].
  intros H. specialize (H Float64.thirdsPanel (Float64.of_Z 5) true).
  vm_compute in H. specialize (H eq_refl). discriminate H.
Qed.

(** ** Sorting *)

Lemma widgetCmp_le (a b : Widget) : (widgetCmp a b <= 0)%Z <-> placement_le a b.
Proof.
  unfold widgetCmp, placement_le.
  destruct (Z.eqb_spec (getRow a) (getRow b)); simpl; lia.
Qed.

Lemma placement_le_total (a b : Widget) : placement_le a b \/ placement_le b a.
Proof. unfold placement_le. lia. Qed.

Lemma placement_le_trans (a b c : Widget) :
  placement_le a b -> placement_le b c -> placement_le a c.
Proof. unfold placement_le. lia. Qed.

Section Sort.
Context {A : Type} (cmp : A -> A -> Z).

Lemma insert_Permutation (a : A) (l : list A) :
  Permutation (insert cmp a l) (a :: l).
Proof.
  induction l as [|b l IH]; simpl; [reflexivity|].
  destruct (cmp a b <=? 0)%Z; [reflexivity|].
  rewrite IH. apply perm_swap.
Qed.

Lemma sort_Permutation (l : list A) : Permutation (sort cmp l) l.
Proof.
  induction l as [|a l IH]; simpl; [reflexivity|].
  rewrite insert_Permutation, IH. reflexivity.
Qed.

Lemma sort_length (l : list A) : length (sort cmp l) = length l.
Proof. apply Permutation_length, sort_Permutation. Qed.

Context (le : A -> A -> Prop).
Hypothesis cmp_le : forall a b, (cmp a b <= 0)%Z <-> le a b.
Hypothesis le_total : forall a b, le a b \/ le b a.
Hypothesis le_trans : forall a b c, le a b -> le b c -> le a c.

Lemma insert_sorted (a : A) (l : list A) :
  StronglySorted le l -> StronglySorted le (insert cmp a l).
Proof.
  induction 1 as [|b l Hl IH Hb]; simpl.
  - repeat constructor.
  - destruct (Z.leb_spec (cmp a b) 0) as [Hab|Hab].
    + apply cmp_le in Hab. constructor; [constructor; assumption|].
      constructor; [assumption|].
      eapply Forall_impl; [exact Hb|]. intros c Hc. eapply le_trans; eassumption.
    + assert (Hba : le b a).
      { destruct (le_total a b) as [H|H]; [apply cmp_le in H; lia|exact H]. }
      constructor; [exact IH|].
      eapply Permutation_Forall; [symmetry; apply insert_Permutation|].
      constructor; assumption.
Qed.

Lemma sort_sorted (l : list A) : StronglySorted le (sort cmp l).
Proof.
  induction l as [|a l IH]; simpl; [constructor|].
  apply insert_sorted, IH.
Qed.

Lemma sort_of_sorted (l : list A) : StronglySorted le l -> sort cmp l = l.
Proof.
  induction 1 as [|a l Hl IH Ha]; simpl; [reflexivity|].
  rewrite IH. destruct Ha as [|b l Hab _]; simpl; [reflexivity|].
  apply cmp_le in Hab. apply Z.leb_le in Hab. rewrite Hab. reflexivity.
Qed.

Lemma sort_idempotent (l : list A) : sort cmp (sort cmp l) = sort cmp l.
Proof. apply sort_of_sorted, sort_sorted. Qed.

End Sort.

(** Sorting sees only the comparator: lists related elementwise by a
    relation the comparator does not distinguish are sorted alike. *)
Lemma insert_Forall2 {A} (cmp : A -> A -> Z) (R : A -> A -> Prop) :
  (forall a a' b b', R a a' -> R b b' -> cmp a b = cmp a' b') ->
  forall a a' l l', R a a' -> Forall2 R l l' ->
  Forall2 R (insert cmp a l) (insert cmp a' l').
Proof.
  intros Hcmp a a' l l' Ha Hl. induction Hl as [|b b' l l' Hb Hl IH]; simpl.
  - repeat constructor. exact Ha.
  - rewrite (Hcmp a a' b b' Ha Hb).
    destruct (cmp a' b' <=? 0)%Z; repeat (constructor; try assumption).
Qed.

Lemma sort_Forall2 {A} (cmp : A -> A -> Z) (R : A -> A -> Prop) :
  (forall a a' b b', R a a' -> R b b' -> cmp a b = cmp a' b') ->
  forall l l', Forall2 R l l' -> Forall2 R (sort cmp l) (sort cmp l').
Proof.
  intros Hcmp l l' Hl. induction Hl; simpl; [constructor|].
  apply insert_Forall2; assumption.
Qed.

Lemma sort_widgets_sorted (l : list Widget) :
  StronglySorted placement_le (sort widgetCmp l).
Proof.
  apply sort_sorted.
  - exact widgetCmp_le.
  - exact placement_le_total.
  - exact placement_le_trans.
Qed.

(** ** The grid branch *)

Lemma gridLoop_calls (left top cs rs : Q) (rsp csp mc : Z) (ws : list Widget) (m : Z) :
  fst (gridLoop left top cs rs rsp csp mc ws m)
  = map (fun w => SetOffsetGeometry (wid w) (gridRect left top cs rs rsp csp mc w)) ws.
Proof.
  revert m. induction ws as [|w ws IH]; intros m; simpl; [reflexivity|].
  specialize (IH (Z.max m (getRow w + getRowSpan w - 1))).
  destruct (gridLoop _ _ _ _ _ _ _ ws _). simpl in *. congruence.
Qed.

Lemma maxRowOf_nonneg (ws : list Widget) : (0 <= maxRowOf ws)%Z.
Proof. induction ws; simpl; lia. Qed.

Lemma maxRowOf_upper (ws : list Widget) (w : Widget) :
  In w ws -> (getRow w + getRowSpan w - 1 <= maxRowOf ws)%Z.
Proof.
  induction ws as [|a ws IH]; simpl; [tauto|].
  intros [->|H]; [lia|]. specialize (IH H). lia.
Qed.

Lemma maxRowOf_attained (ws : list Widget) :
  maxRowOf ws = 0%Z
  \/ exists w, In w ws /\ maxRowOf ws = (getRow w + getRowSpan w - 1)%Z.
Proof.
  induction ws as [|a ws IH]; simpl; [left; reflexivity|].
  destruct (Z.max_spec (getRow a + getRowSpan a - 1) (maxRowOf ws)) as [[H ->]|[H ->]].
  - destruct IH as [IH|(w & Hw & IH)]; [left; exact IH|].
    right. exists w. split; [right; exact Hw|exact IH].
  - right. exists a. split; [left; reflexivity|reflexivity].
Qed.

Lemma gridLoop_maxRow (left top cs rs : Q) (rsp csp mc : Z) (ws : list Widget) (m : Z) :
  (0 <= m)%Z ->
  snd (gridLoop left top cs rs rsp csp mc ws m) = Z.max m (maxRowOf ws).
Proof.
  revert m. induction ws as [|w ws IH]; intros m Hm; simpl; [lia|].
  specialize (IH (Z.max m (getRow w + getRowSpan w - 1)) ltac:(lia)).
  destruct (gridLoop _ _ _ _ _ _ _ ws _). simpl in *. lia.
Qed.

Lemma extent_app_sizer (calls : list Effect) (h : Q) :
  extent (calls ++ [SetSizerHeight h]) = Some h.
Proof. unfold extent. rewrite fold_left_app. reflexivity. Qed.

Lemma targets_app_sizer (calls : list Effect) (h : Q) :
  targets (calls ++ [SetSizerHeight h]) = targets calls.
Proof. unfold targets. rewrite flat_map_app. simpl. apply app_nil_r. Qed.

Lemma children_nonempty (this : DashboardPanel) :
  children this <> [] -> (length (children this) =? 0)%nat = false.
Proof. destruct (children this); [congruence|reflexivity]. Qed.

(** The effects of a pass in grid mode: one call per child in container
    order, then the sizer. *)
Lemma layoutChildren_grid (this : DashboardPanel) (ow oh : Q) :
  children this <> [] ->
  singleCol (dataOf this ow) = false ->
  _layoutChildren this ow oh
  = map (fun w => SetOffsetGeometry (wid w) (gridRectOf this ow w)) (children this)
    ++ [SetSizerHeight
          (inject_Z (maxRowOf (children this) + 1) * rowSize (dataOf this ow)
           + inject_Z (maxRowOf (children this)) * inject_Z (rowSpacing this)
           + verticalSum (boxSizing this))].
Proof.
  intros Hne Hgrid. unfold _layoutChildren.
  rewrite (children_nonempty this Hne).
  unfold dataOf, innerWidth in Hgrid. rewrite Hgrid.
  pose proof (gridLoop_calls (paddingLeft (boxSizing this)) (paddingTop (boxSizing this))
    (colSize (dataOf this ow)) (rowSize (dataOf this ow)) (rowSpacing this)
    (columnSpacing this) (columnCount this - 1) (children this) 0) as Hc.
  pose proof (gridLoop_maxRow (paddingLeft (boxSizing this)) (paddingTop (boxSizing this))
    (colSize (dataOf this ow)) (rowSize (dataOf this ow)) (rowSpacing this)
    (columnSpacing this) (columnCount this - 1) (children this) 0 ltac:(lia)) as Hm.
  unfold dataOf, innerWidth in Hc, Hm.
  destruct (gridLoop _ _ _ _ _ _ _ _ _) as [calls maxRow]. simpl in Hc, Hm.
  subst calls.
  assert (maxRow = maxRowOf (children this)) as ->
    by (pose proof (maxRowOf_nonneg (children this)); lia).
  reflexivity.
Qed.

Lemma nth_error_calls {A} (f : A -> Effect) (l : list A) (e : Effect) (i : nat) (a : A) :
  nth_error l i = Some a -> nth_error (map f l ++ [e]) i = Some (f a).
Proof.
  intros H. rewrite nth_error_app1.
  - apply map_nth_error, H.
  - rewrite length_map. apply nth_error_Some. congruence.
Qed.

Lemma targets_map_calls (f : Widget -> Rect) (l : list Widget) :
  targets (map (fun w => SetOffsetGeometry (wid w) (f w)) l) = map wid l.
Proof. induction l; simpl; congruence. Qed.


Lemma adjColSpan_spec (cc : Z) (w : Widget) :
  adjColSpan (cc - 1) w
  = Z.min (getColumnSpan w) (cc - Z.min (getColumn w) (cc - 1)).
Proof. unfold adjColSpan, adjCol. lia. Qed.

(** C2.  In grid mode every child gets the column
    [adjCol = min(column, columnCount - 1)], which is at least 0 because
    coercion keeps the declared column at least 0, and the column span
    [adjSpan = min(columnSpan, columnCount - adjCol)], so
    [adjCol + adjSpan <= columnCount]; the row and the row span are used as
    declared.  The rectangle starts at
    [x = paddingLeft + adjCol * (colSize + columnSpacing)] and
    [y = paddingTop + row * (rowSize + rowSpacing)].  A widget at column 10
    with span 5 in 12 columns gets span 2. *)
Theorem grid_origin (this : DashboardPanel) (ow oh : Q) (i : nat) (w : Widget) :
  (1 <= columnCount this)%Z ->
  singleCol (dataOf this ow) = false ->
  nth_error (children this) i = Some w ->
  (0 <= getColumn w)%Z ->
  let d := dataOf this ow in
  let c := Z.min (getColumn w) (columnCount this - 1) in
  let s := Z.min (getColumnSpan w) (columnCount this - c) in
  exists r,
    nth_error (_layoutChildren this ow oh) i = Some (SetOffsetGeometry (wid w) r)
    /\ adjCol (columnCount this - 1) w = c
    /\ adjColSpan (columnCount this - 1) w = s
    /\ (0 <= c <= columnCount this - 1)%Z
    /\ (c + s <= columnCount this)%Z
    /\ rect_left r
       = paddingLeft (boxSizing this)
         + inject_Z c * (colSize d + inject_Z (columnSpacing this))
    /\ rect_top r
       = paddingTop (boxSizing this)
         + inject_Z (getRow w) * (rowSize d + inject_Z (rowSpacing this))
    /\ rect_height r
       = Math.max (minHeight (sizeLimits w))
           (Math.min (inject_Z (getRowSpan w) * rowSize d
                      + inject_Z (getRowSpan w - 1) * inject_Z (rowSpacing this))
              (maxHeight (sizeLimits w)))
    /\ (getColumn w = 10%Z -> getColumnSpan w = 5%Z -> columnCount this = 12%Z ->
        s = 2%Z).
Proof.
  intros Hcc Hgrid Hi Hcol d c s.
  exists (gridRectOf this ow w).
  assert (Hne : children this <> []) by (intros E; rewrite E in Hi; destruct i; discriminate).
  rewrite (layoutChildren_grid this ow oh Hne Hgrid).
  split.
  { apply (nth_error_calls
             (fun w => SetOffsetGeometry (wid w) (gridRectOf this ow w)) _ _ _ _ Hi). }
  split; [reflexivity|].
  split; [apply adjColSpan_spec|].
  repeat split; try (subst c s; lia).
Qed.

Lemma grid_origin_witness :
  (1 <= columnCount spanPanel)%Z
  /\ singleCol (dataOf spanPanel 1288) = false
  /\ nth_error (children spanPanel) 0 = Some (mkWidget 0 2 10 3 5)
  /\ (0 <= getColumn (mkWidget 0 2 10 3 5))%Z
  /\ exists r,
       nth_error (_layoutChildren spanPanel 1288 0) 0
       = Some (SetOffsetGeometry 0%nat r)
       /\ adjColSpan 11 (mkWidget 0 2 10 3 5) = 2%Z
       /\ rect_left r == 1080 /\ rect_top r == 216.
Proof.
  assert (H1 : (1 <= columnCount spanPanel)%Z) by discriminate.
  assert (H2 : singleCol (dataOf spanPanel 1288) = false) by reflexivity.
  assert (H3 : nth_error (children spanPanel) 0 = Some (mkWidget 0 2 10 3 5))
    by reflexivity.
  assert (H4 : (0 <= getColumn (mkWidget 0 2 10 3 5))%Z) by discriminate.
  repeat (split; [assumption|]).
  destruct (grid_origin spanPanel 1288 0 0%nat (mkWidget 0 2 10 3 5) H1 H2 H3 H4)
    as (r & Hr & _ & Hs & _ & _ & Hx & Hy & _).
  exists r. split; [exact Hr|]. split; [exact Hs|].
  rewrite Hx, Hy. split; reflexivity.
Defined.




(** C4.  Right-edge containment asks that in grid mode the rectangle
    computed before the limits ends at or before
    [paddingLeft + columnCount * colSize + (columnCount - 1) * columnSpacing].
    The pass clamps the span for the cells but takes the gaps from the
    declared span: with the default panel at width 1288 (column size 100),
    a widget at column 10 with declared span 5 starts at 1080, is 232 wide
    and ends at 1312, past the right edge 1288. *)
Theorem grid_right_edge_exceeded :
  singleCol (dataOf overflowPanel 1288) = false
  /\ colSize (dataOf overflowPanel 1288) == 100
  /\ paddingLeft (boxSizing overflowPanel)
     + inject_Z (columnCount overflowPanel) * colSize (dataOf overflowPanel 1288)
     + inject_Z (columnCount overflowPanel - 1)
       * inject_Z (columnSpacing overflowPanel)
     == 1288
  /\ adjColSpan (columnCount overflowPanel - 1) (mkWidget 0 0 10 1 5) = 2%Z
  /\ gridWidth (colSize (dataOf overflowPanel 1288)) (columnSpacing overflowPanel)
       (columnCount overflowPanel - 1) (mkWidget 0 0 10 1 5) == 232
  /\ exists r,
       nth_error (_layoutChildren overflowPanel 1288 0) 0
       = Some (SetOffsetGeometry 0%nat r)
       /\ rect_left r == 1080
       /\ rect_width r == 232
       /\ rect_left r + rect_width r == 1312
       /\ ~ rect_left r + rect_width r <= 1288.
Proof.
  repeat (split; [reflexivity|]).
  exists (gridRectOf overflowPanel 1288 (mkWidget 0 0 10 1 5)).
  repeat (split; [reflexivity|]).
  intros H. vm_compute in H. apply H. reflexivity.
Qed.

(** C7.  In grid mode with at least one child the extent written to the
    sizer is [(maxRow + 1) * rowSize + maxRow * rowSpacing] plus the
    vertical box sum of the panel, which is its top and bottom border plus
    its top and bottom padding; [maxRow] is the largest [row + rowSpan - 1]
    over the children, at least 0, the row span taken as declared.  With
    row size 50, row spacing 8 and one child at row 2 with span 3, [maxRow]
    is 4 and the extent is 282 plus the box sum. *)
Theorem grid_extent (this : DashboardPanel) (ow oh : Q) :
  children this <> [] ->
  singleCol (dataOf this ow) = false ->
  let d := dataOf this ow in
  let maxRow := maxRowOf (children this) in
  extent (_layoutChildren this ow oh)
  = Some (inject_Z (maxRow + 1) * rowSize d
          + inject_Z maxRow * inject_Z (rowSpacing this)
          + verticalSum (boxSizing this))
  /\ (forall edges, boxSizing this = boxSizingOf edges ->
      extent (_layoutChildren this ow oh)
      = Some (inject_Z (maxRow + 1) * rowSize d
              + inject_Z maxRow * inject_Z (rowSpacing this)
              + (borderTop edges + edgePaddingTop edges
                 + edgePaddingBottom edges + borderBottom edges)))
  /\ (0 <= maxRow)%Z
  /\ (forall w, In w (children this) -> (getRow w + getRowSpan w - 1 <= maxRow)%Z)
  /\ (maxRow = 0%Z
      \/ exists w, In w (children this)
                   /\ maxRow = (getRow w + getRowSpan w - 1)%Z)
  /\ (forall w, children this = [w] -> getRow w = 2%Z -> getRowSpan w = 3%Z ->
      rowSize d == 50 -> rowSpacing this = 8%Z ->
      maxRow = 4%Z
      /\ exists e, extent (_layoutChildren this ow oh) = Some e
                   /\ e == 282 + verticalSum (boxSizing this)).
Proof.
  intros Hne Hgrid d maxRow.
  rewrite (layoutChildren_grid this ow oh Hne Hgrid), extent_app_sizer.
  split; [reflexivity|].
  split; [intros edges ->; reflexivity|].
  split; [apply maxRowOf_nonneg|].
  split; [apply maxRowOf_upper|].
  split; [apply maxRowOf_attained|].
  intros w Hw Hrow Hspan Hrs Hsp.
  assert (H4 : maxRow = 4%Z).
  { unfold maxRow. rewrite Hw. simpl. rewrite Hrow, Hspan. reflexivity. }
  split; [exact H4|].
  eexists. split; [reflexivity|].
  fold d. fold maxRow. rewrite H4, Hrs, Hsp. reflexivity.
Qed.

Lemma grid_extent_witness :
  children rowsPanel <> []
  /\ singleCol (dataOf rowsPanel 688) = false
  /\ exists e, extent (_layoutChildren rowsPanel 688 0) = Some e /\ e == 282.
Proof.
  assert (H1 : children rowsPanel <> []) by discriminate.
  assert (H2 : singleCol (dataOf rowsPanel 688) = false) by reflexivity.
  repeat (split; [assumption|]).
  destruct (grid_extent rowsPanel 688 0 H1 H2) as (_ & _ & _ & _ & _ & Hex).
  destruct (Hex (mkWidget 0 2 0 3 1)) as (_ & e & He & Hv);
    try reflexivity.
  exists e. split; [exact He|]. rewrite Hv. reflexivity.
Defined.

(** The claim C7 as stated fails for a panel with a border: with a border
    of 3 and 4 and a padding of 3 and 4 pixels at the top and at the
    bottom, row size 50, row spacing 8 and one child at row 2 with span 3,
    the extent written is 282 + 14 = 296, where 282 plus the vertical
    padding is 289. *)
Lemma grid_extent_counterexample :
  singleCol (dataOf borderedPanel 688) = false
  /\ rowSize (dataOf borderedPanel 688) == 50
  /\ verticalPadding borderedEdges == 7
  /\ exists e, extent (_layoutChildren borderedPanel 688 0) = Some e
               /\ e == 296
               /\ ~ e == 282 + verticalPadding borderedEdges.
Proof.
  split; [reflexivity|]. split; [reflexivity|]. split; [reflexivity|].
  eexists. split; [reflexivity|]. split; [reflexivity|].
  intros H. vm_compute in H. discriminate H.
Qed.

(** ** The single-column branch *)

Section SingleColumn.
Variables (left cs rs : Q) (sp : Z).

Lemma cursorAfter_cons (w : Widget) (l : list Widget) (y : Q) :
  cursorAfter rs sp (w :: l) y
  = cursorAfter rs sp l
      (y + (inject_Z (getRowSpan w) * rs
            + inject_Z (getRowSpan w - 1) * inject_Z sp + inject_Z sp)).
Proof. reflexivity. Qed.

Lemma singleColLoop_cursor (l : list Widget) (y : Q) :
  snd (singleColLoop left cs rs sp l y) = cursorAfter rs sp l y.
Proof.
  revert y. induction l as [|w l IH]; intros y; [reflexivity|].
  rewrite cursorAfter_cons, <- IH. simpl.
  destruct (singleColLoop _ _ _ _ l _). reflexivity.
Qed.

Lemma singleColLoop_nth (l : list Widget) (y : Q) (i : nat) (w : Widget) :
  nth_error l i = Some w ->
  nth_error (fst (singleColLoop left cs rs sp l y)) i
  = Some (SetOffsetGeometry (wid w)
            (singleColRect left cs rs sp (cursorAfter rs sp (firstn i l) y) w)).
Proof.
  revert y i. induction l as [|a l IH]; intros y i Hi; [destruct i; discriminate|].
  simpl. specialize (IH (y + (inject_Z (getRowSpan a) * rs
            + inject_Z (getRowSpan a - 1) * inject_Z sp + inject_Z sp))).
  destruct (singleColLoop _ _ _ _ l _) as [calls y']. simpl in *.
  destruct i as [|i]; simpl in *.
  - injection Hi as ->. reflexivity.
  - apply IH, Hi.
Qed.

Lemma singleColLoop_targets (l : list Widget) (y : Q) :
  targets (fst (singleColLoop left cs rs sp l y)) = map wid l.
Proof.
  revert y. induction l as [|a l IH]; intros y; [reflexivity|].
  simpl. specialize (IH (y + (inject_Z (getRowSpan a) * rs
            + inject_Z (getRowSpan a - 1) * inject_Z sp + inject_Z sp))).
  destruct (singleColLoop _ _ _ _ l _) as [calls y']. simpl in *. congruence.
Qed.

Lemma singleColLoop_length (l : list Widget) (y : Q) :
  length (fst (singleColLoop left cs rs sp l y)) = length l.
Proof.
  revert y. induction l as [|a l IH]; intros y; [reflexivity|].
  simpl. specialize (IH (y + (inject_Z (getRowSpan a) * rs
            + inject_Z (getRowSpan a - 1) * inject_Z sp + inject_Z sp))).
  destruct (singleColLoop _ _ _ _ l _) as [calls y']. simpl in *. congruence.
Qed.

(** The loop does not look at the limits to place a widget. *)
Lemma singleColLoop_positions (l l' : list Widget) (y : Q) :
  Forall2 same_placement l l' ->
  positions (fst (singleColLoop left cs rs sp l y))
  = positions (fst (singleColLoop left cs rs sp l' y))
  /\ snd (singleColLoop left cs rs sp l y) = snd (singleColLoop left cs rs sp l' y).
Proof.
  intros H. revert y. induction H as [|a a' l l' Ha Hl IH]; intros y; [split; reflexivity|].
  destruct Ha as (Hid & _ & _ & Hspan & _). simpl. rewrite <- Hspan, <- Hid.
  specialize (IH (y + (inject_Z (getRowSpan a) * rs
            + inject_Z (getRowSpan a - 1) * inject_Z sp + inject_Z sp))).
  destruct (singleColLoop _ _ _ _ l _) as [calls y1].
  destruct (singleColLoop _ _ _ _ l' _) as [calls' y1']. simpl in *.
  destruct IH as [-> ->]. split; reflexivity.
Qed.

Lemma cursorAfter_same_placement (l l' : list Widget) (y : Q) :
  Forall2 same_placement l l' -> cursorAfter rs sp l y = cursorAfter rs sp l' y.
Proof.
  intros H. rewrite <- !singleColLoop_cursor. apply singleColLoop_positions, H.
Qed.

Lemma cursorAfter_snoc (l : list Widget) (w : Widget) (y : Q) :
  cursorAfter rs sp (l ++ [w]) y
  = cursorAfter rs sp l y
    + (inject_Z (getRowSpan w) * rs
       + inject_Z (getRowSpan w - 1) * inject_Z sp + inject_Z sp).
Proof. unfold cursorAfter. rewrite fold_left_app. reflexivity. Qed.

Lemma firstn_S_nth {A} (l : list A) (i : nat) (a : A) :
  nth_error l i = Some a -> firstn (S i) l = firstn i l ++ [a].
Proof.
  revert i. induction l as [|b l IH]; intros i Hi; [destruct i; discriminate|].
  destruct i as [|i]; simpl in *.
  - injection Hi as ->. reflexivity.
  - f_equal. apply IH, Hi.
Qed.

Lemma cursorAfter_step (l : list Widget) (i : nat) (w : Widget) (y : Q) :
  nth_error l i = Some w ->
  cursorAfter rs sp (firstn (S i) l) y
  = cursorAfter rs sp (firstn i l) y
    + (inject_Z (getRowSpan w) * rs
       + inject_Z (getRowSpan w - 1) * inject_Z sp + inject_Z sp).
Proof. intros H. rewrite (firstn_S_nth l i w H). apply cursorAfter_snoc. Qed.

Lemma cursorAfter_sum (l : list Widget) (y : Q) :
  cursorAfter rs sp l y
  == y + Qsum (fun w => inject_Z (getRowSpan w) * (rs + inject_Z sp)) l.
Proof.
  revert y. induction l as [|w l IH]; intros y.
  - unfold cursorAfter, Qsum. cbn [fold_left fold_right]. ring.
  - rewrite cursorAfter_cons, IH. unfold Qsum. cbn [fold_right].
    rewrite inject_Z_pred. ring.
Qed.

Lemma cursorAfter_slots (l : list Widget) (y : Q) :
  cursorAfter rs sp l y
  == y + Qsum (slot rs sp) l + inject_Z (Z.of_nat (length l)) * inject_Z sp.
Proof.
  revert y. induction l as [|w l IH]; intros y.
  - unfold cursorAfter, Qsum. cbn [fold_left fold_right length Z.of_nat].
    change (inject_Z 0) with 0. ring.
  - rewrite cursorAfter_cons, IH.
    change (length (w :: l)) with (S (length l)).
    rewrite Nat2Z.inj_succ. unfold Z.succ. rewrite inject_Z_plus, inject_Z_pred.
    unfold Qsum. cbn [fold_right]. unfold slot at 2.
    change (inject_Z 1) with 1. ring.
Qed.

End SingleColumn.

(** The effects of a pass in single-column mode: one call per child in
    sorted order, then the sizer, which gets the final cursor. *)
Lemma layoutChildren_single (this : DashboardPanel) (ow oh : Q) :
  children this <> [] ->
  singleCol (dataOf this ow) = true ->
  _layoutChildren this ow oh
  = fst (singleColLoop (paddingLeft (boxSizing this))
           (colSize (dataOf this ow)) (rowSize (dataOf this ow)) (rowSpacing this)
           (sort widgetCmp (children this)) (paddingTop (boxSizing this)))
    ++ [SetSizerHeight
          (cursorAfter (rowSize (dataOf this ow)) (rowSpacing this)
             (sort widgetCmp (children this)) (paddingTop (boxSizing this)))].
Proof.
  intros Hne Hsingle. unfold _layoutChildren.
  rewrite (children_nonempty this Hne).
  unfold dataOf, innerWidth in *. rewrite Hsingle.
  rewrite <- (singleColLoop_cursor (paddingLeft (boxSizing this))
                (colSize (_layoutData this (ow - horizontalSum (boxSizing this))))).
  destruct (singleColLoop _ _ _ _ _ _). reflexivity.
Qed.

Lemma layoutChildren_single_nth (this : DashboardPanel) (ow oh : Q) (i : nat) (w : Widget) :
  children this <> [] ->
  singleCol (dataOf this ow) = true ->
  nth_error (sort widgetCmp (children this)) i = Some w ->
  nth_error (_layoutChildren this ow oh) i
  = Some (SetOffsetGeometry (wid w)
            (singleColRect (paddingLeft (boxSizing this))
               (colSize (dataOf this ow)) (rowSize (dataOf this ow)) (rowSpacing this)
               (cursorAfter (rowSize (dataOf this ow)) (rowSpacing this)
                  (firstn i (sort widgetCmp (children this)))
                  (paddingTop (boxSizing this)))
               w)).
Proof.
  intros Hne Hsingle Hi. rewrite (layoutChildren_single this ow oh Hne Hsingle).
  rewrite nth_error_app1.
  - apply singleColLoop_nth, Hi.
  - rewrite singleColLoop_length. apply nth_error_Some. congruence.
Qed.

Lemma cursorAfter_app (rs : Q) (sp : Z) (l1 l2 : list Widget) (y : Q) :
  cursorAfter rs sp (l1 ++ l2) y = cursorAfter rs sp l2 (cursorAfter rs sp l1 y).
Proof. unfold cursorAfter. apply fold_left_app. Qed.

Lemma cursorAfter_ge (rs : Q) (sp : Z) (l : list Widget) (y : Q) :
  0 <= rs -> (0 <= sp)%Z ->
  Forall (fun w => (1 <= getRowSpan w)%Z) l ->
  y <= cursorAfter rs sp l y.
Proof.
  intros Hrs Hsp Hl. revert y. induction Hl as [|w l Hw Hl IH]; intros y.
  - apply Qle_refl.
  - rewrite cursorAfter_cons. eapply Qle_trans; [|apply IH].
    pose proof (inject_Z_le 1 (getRowSpan w) Hw) as H1.
    pose proof (inject_Z_le 0 (getRowSpan w - 1) ltac:(lia)) as H2.
    pose proof (inject_Z_le 0 sp Hsp) as H3.
    change (inject_Z 1) with 1 in H1. change (inject_Z 0) with 0 in H2, H3.
    nra.
Qed.

Lemma cursorAfter_mono (rs : Q) (sp : Z) (l : list Widget) (y : Q) (i j : nat) :
  0 <= rs -> (0 <= sp)%Z ->
  Forall (fun w => (1 <= getRowSpan w)%Z) l ->
  (i <= j)%nat ->
  cursorAfter rs sp (firstn i l) y <= cursorAfter rs sp (firstn j l) y.
Proof.
  intros Hrs Hsp Hl Hij.
  rewrite <- (firstn_skipn i (firstn j l)), firstn_firstn, Nat.min_l by exact Hij.
  rewrite cursorAfter_app. apply cursorAfter_ge; [assumption..|].
  apply Forall_drop, Forall_take, Hl.
Qed.

Lemma sort_three (a b c : Widget) :
  (getRow a, getColumn a) = (1, 0)%Z ->
  (getRow b, getColumn b) = (0, 5)%Z ->
  (getRow c, getColumn c) = (0, 1)%Z ->
  sort widgetCmp [a; b; c] = [c; b; a].
Proof.
  destruct a, b, c. simpl.
  intros [= -> ->] [= -> ->] [= -> ->]. reflexivity.
Qed.

(** C5.  In single-column mode the children are laid out in ascending
    (row, then column) order of their declared placement, which serves only
    as a sort key: every rectangle starts at the left padding whatever the
    declared column, the first at the top padding and each next one below
    the previous one.  Children at (1,0), (0,5), (0,1) are laid out in the
    order (0,1), (0,5), (1,0). *)
Theorem single_column_order (this : DashboardPanel) (ow oh : Q) :
  children this <> [] ->
  singleCol (dataOf this ow) = true ->
  let sorted := sort widgetCmp (children this) in
  let rs := rowSize (dataOf this ow) in
  let sp := rowSpacing this in
  let topOf i := cursorAfter rs sp (firstn i sorted) (paddingTop (boxSizing this)) in
  Permutation sorted (children this)
  /\ StronglySorted placement_le sorted
  /\ targets (_layoutChildren this ow oh) = map wid sorted
  /\ (forall i w, nth_error sorted i = Some w ->
      exists r,
        nth_error (_layoutChildren this ow oh) i = Some (SetOffsetGeometry (wid w) r)
        /\ rect_left r = paddingLeft (boxSizing this)
        /\ rect_top r = topOf i)
  /\ topOf 0%nat = paddingTop (boxSizing this)
  /\ (forall i w, nth_error sorted i = Some w ->
      topOf (S i)
      = topOf i + (inject_Z (getRowSpan w) * rs
                   + inject_Z (getRowSpan w - 1) * inject_Z sp + inject_Z sp))
  /\ (0 <= rs -> (0 <= sp)%Z ->
      Forall (fun w => (1 <= getRowSpan w)%Z) (children this) ->
      forall i j, (i <= j)%nat -> topOf i <= topOf j)
  /\ (forall a b c, children this = [a; b; c] ->
      (getRow a, getColumn a) = (1, 0)%Z ->
      (getRow b, getColumn b) = (0, 5)%Z ->
      (getRow c, getColumn c) = (0, 1)%Z ->
      sorted = [c; b; a]).
Proof.
  intros Hne Hsingle sorted rs sp topOf.
  split; [apply sort_Permutation|].
  split; [apply sort_widgets_sorted|].
  split.
  { rewrite (layoutChildren_single this ow oh Hne Hsingle), targets_app_sizer.
    apply singleColLoop_targets. }
  split.
  { intros i w Hi. eexists. split; [|split].
    - apply (layoutChildren_single_nth this ow oh i w Hne Hsingle Hi).
    - reflexivity.
    - reflexivity. }
  split; [reflexivity|].
  split; [intros i w Hi; apply cursorAfter_step, Hi|].
  split.
  { intros Hrs Hsp Hspan i j Hij. apply cursorAfter_mono; try assumption.
    eapply Permutation_Forall; [|exact Hspan].
    symmetry. apply sort_Permutation. }
  intros a b c Hch Ha Hb Hc. unfold sorted. rewrite Hch.
  apply sort_three; assumption.
Qed.

Lemma single_column_order_witness :
  children stackPanel <> []
  /\ singleCol (dataOf stackPanel 300) = true
  /\ targets (_layoutChildren stackPanel 300 0) = [2; 1; 0]%nat.
Proof.
  assert (H1 : children stackPanel <> []) by discriminate.
  assert (H2 : singleCol (dataOf stackPanel 300) = true) by reflexivity.
  repeat (split; [assumption|]).
  destruct (single_column_order stackPanel 300 0 H1 H2) as (_ & _ & Ht & _).
  rewrite Ht. reflexivity.
Defined.

Lemma Qsum_Permutation {A} (f : A -> Q) (l l' : list A) :
  Permutation l l' -> Qsum f l == Qsum f l'.
Proof.
  induction 1 as [|a l l' _ IH|a b l|l l' l'' _ IH1 _ IH2]; unfold Qsum in *;
    cbn [fold_right].
  - reflexivity.
  - rewrite IH. reflexivity.
  - ring.
  - rewrite IH1. exact IH2.
Qed.

(** C6, as the pass computes it.  In single-column mode with at least one
    child the extent written to the sizer is the final cursor.  The cursor
    advances by the slot height plus the row spacing after every child, the
    last one included, so the extent is the top padding plus the slot heights
    [rowSpan * rowSize + (rowSpan - 1) * rowSpacing] of all children plus
    [n * rowSpacing] for [n] children: one row spacing follows the last
    child. *)
Theorem single_column_extent (this : DashboardPanel) (ow oh : Q) :
  children this <> [] ->
  singleCol (dataOf this ow) = true ->
  let rs := rowSize (dataOf this ow) in
  let sp := rowSpacing this in
  let n := Z.of_nat (length (children this)) in
  exists e,
    extent (_layoutChildren this ow oh) = Some e
    /\ e = cursorAfter rs sp (sort widgetCmp (children this))
             (paddingTop (boxSizing this))
    /\ e == paddingTop (boxSizing this) + Qsum (slot rs sp) (children this)
            + inject_Z n * inject_Z sp
    /\ e == extentNoTrailing this ow + inject_Z sp.
Proof.
  intros Hne Hsingle rs sp n.
  rewrite (layoutChildren_single this ow oh Hne Hsingle), extent_app_sizer.
  eexists. split; [reflexivity|]. split; [reflexivity|].
  assert (He : cursorAfter rs sp (sort widgetCmp (children this))
                 (paddingTop (boxSizing this))
               == paddingTop (boxSizing this) + Qsum (slot rs sp) (children this)
                  + inject_Z n * inject_Z sp).
  { rewrite cursorAfter_slots, sort_length.
    rewrite (Qsum_Permutation _ _ _ (sort_Permutation widgetCmp (children this))).
    reflexivity. }
  split; [exact He|].
  fold rs sp. rewrite He. unfold extentNoTrailing. fold rs sp n. ring.
Qed.

Lemma single_column_extent_witness :
  children stackPanel <> []
  /\ singleCol (dataOf stackPanel 300) = true
  /\ exists e, extent (_layoutChildren stackPanel 300 0) = Some e /\ e == 174.
Proof.
  assert (H1 : children stackPanel <> []) by discriminate.
  assert (H2 : singleCol (dataOf stackPanel 300) = true) by reflexivity.
  repeat (split; [assumption|]).
  destruct (single_column_extent stackPanel 300 0 H1 H2) as (e & He & _ & Hv & _).
  exists e. split; [exact He|]. rewrite Hv. reflexivity.
Defined.

(** The claim C6 as stated fails: with the default panel at width 300 and
    one child spanning one row, the sizer gets 58 (the slot of 50 and one
    row spacing of 8), not the 50 a sum without trailing spacing gives. *)
Lemma single_column_extent_counterexample :
  children onePanel <> []
  /\ singleCol (dataOf onePanel 300) = true
  /\ extent (_layoutChildren onePanel 300 0) = Some 58
  /\ extentNoTrailing onePanel 300 == 50
  /\ ~ (forall e, extent (_layoutChildren onePanel 300 0) = Some e ->
        e == extentNoTrailing onePanel 300).
Proof.
  split; [discriminate|]. repeat (split; [reflexivity|]).
  intros H. specialize (H 58 eq_refl). discriminate H.
Qed.

(** ** Positions in single-column mode do not depend on the limits *)

Lemma widgetCmp_same_placement (a a' b b' : Widget) :
  same_placement a a' -> same_placement b b' -> widgetCmp a b = widgetCmp a' b'.
Proof.
  intros (_ & Hr & Hc & _) (_ & Hr' & Hc' & _). unfold widgetCmp.
  rewrite Hr, Hc, Hr', Hc'. reflexivity.
Qed.

Lemma Forall2_nth_error {A B} (R : A -> B -> Prop) (l : list A) (l' : list B)
    (i : nat) (a : A) (b : B) :
  Forall2 R l l' -> nth_error l i = Some a -> nth_error l' i = Some b -> R a b.
Proof.
  intros H. revert i. induction H as [|x y l l' Hxy _ IH]; intros i Ha Hb.
  - destruct i; discriminate.
  - destruct i as [|i]; simpl in *; [congruence|eapply IH; eassumption].
Qed.

Lemma positions_app_sizer (calls : list Effect) (h : Q) :
  positions (calls ++ [SetSizerHeight h]) = positions calls.
Proof. unfold positions. rewrite flat_map_app. simpl. apply app_nil_r. Qed.

Lemma singleColRect_same (left cs rs : Q) (sp : Z) (y : Q) (w w' : Widget) :
  same_placement w w' -> sizeLimits w' = sizeLimits w ->
  singleColRect left cs rs sp y w' = singleColRect left cs rs sp y w.
Proof.
  intros (_ & _ & _ & Hs & _) Hl. unfold singleColRect. rewrite Hl, Hs. reflexivity.
Qed.

(** C10.  In single-column mode the cursor advances by the slot height
    plus the row spacing, not by the height the limits allow: the i-th
    child in sorted order is placed at the left padding and at
    [y = paddingTop + sum over the first i children of
    rowSpan * (rowSize + rowSpacing)].  Changing the size limits of the
    children changes no position and not the extent, and leaves the whole
    rectangle of every child whose own limits are unchanged; so a child
    whose minimum height exceeds its slot overlaps the one below it. *)
Theorem single_column_positions (this : DashboardPanel) (ow oh : Q) :
  children this <> [] ->
  singleCol (dataOf this ow) = true ->
  let sorted := sort widgetCmp (children this) in
  let rs := rowSize (dataOf this ow) in
  let sp := rowSpacing this in
  (forall i w, nth_error sorted i = Some w ->
     exists r,
       nth_error (_layoutChildren this ow oh) i = Some (SetOffsetGeometry (wid w) r)
       /\ rect_left r = paddingLeft (boxSizing this)
       /\ rect_top r
          == paddingTop (boxSizing this)
             + Qsum (fun w' => inject_Z (getRowSpan w') * (rs + inject_Z sp))
                 (firstn i sorted))
  /\ (forall ws', Forall2 same_placement (children this) ws' ->
      let this' := withChildren this ws' in
      singleCol (dataOf this' ow) = true
      /\ positions (_layoutChildren this' ow oh) = positions (_layoutChildren this ow oh)
      /\ extent (_layoutChildren this' ow oh) = extent (_layoutChildren this ow oh)
      /\ (forall i w w',
            nth_error sorted i = Some w ->
            nth_error (sort widgetCmp ws') i = Some w' ->
            sizeLimits w' = sizeLimits w ->
            nth_error (_layoutChildren this' ow oh) i
            = nth_error (_layoutChildren this ow oh) i))
  /\ (exists r0 r1,
        _layoutChildren overlapPanel 300 0
        = [SetOffsetGeometry 0%nat r0; SetOffsetGeometry 1%nat r1; SetSizerHeight 116]
        /\ rect_top r0 == 0 /\ rect_height r0 == 200 /\ rect_top r1 == 58
        /\ rect_top r1 < rect_top r0 + rect_height r0).
Proof.
  intros Hne Hsingle sorted rs sp.
  split.
  { intros i w Hi. eexists. split; [|split].
    - apply (layoutChildren_single_nth this ow oh i w Hne Hsingle Hi).
    - reflexivity.
    - apply cursorAfter_sum. }
  split.
  { intros ws' Hws this'.
    assert (Hd : dataOf this' ow = dataOf this ow) by reflexivity.
    assert (Hne' : children this' <> []).
    { simpl. intros ->. inversion Hws. congruence. }
    assert (Hsingle' : singleCol (dataOf this' ow) = true) by (rewrite Hd; exact Hsingle).
    assert (Hsorted : Forall2 same_placement sorted (sort widgetCmp ws')).
    { apply sort_Forall2; [exact widgetCmp_same_placement|exact Hws]. }
    split; [exact Hsingle'|].
    rewrite (layoutChildren_single this ow oh Hne Hsingle).
    rewrite (layoutChildren_single this' ow oh Hne' Hsingle'), Hd.
    change (children this') with ws'. change (boxSizing this') with (boxSizing this).
    change (rowSpacing this') with (rowSpacing this).
    rewrite !positions_app_sizer, !extent_app_sizer.
    split; [symmetry; apply singleColLoop_positions, Hsorted|].
    split.
    { f_equal. symmetry.
      apply (cursorAfter_same_placement (paddingLeft (boxSizing this))
               (colSize (dataOf this ow))), Hsorted. }
    intros i w w' Hi Hi' Hlim.
    pose proof (Forall2_nth_error _ _ _ _ _ _ Hsorted Hi Hi') as Hww.
    rewrite <- (layoutChildren_single this ow oh Hne Hsingle).
    rewrite (layoutChildren_single_nth this ow oh i w Hne Hsingle Hi).
    pose proof (layoutChildren_single_nth this' ow oh i w' Hne' Hsingle' Hi') as Hn.
    rewrite (layoutChildren_single this' ow oh Hne' Hsingle'), Hd in Hn.
    change (children this') with ws' in Hn.
    change (boxSizing this') with (boxSizing this) in Hn.
    change (rowSpacing this') with (rowSpacing this) in Hn.
    rewrite Hn. destruct Hww as (Hid & Hrest).
    rewrite <- Hid.
    rewrite (singleColRect_same _ _ _ _ _ w w') by (try split; assumption).
    rewrite (cursorAfter_same_placement (paddingLeft (boxSizing this))
               (colSize (dataOf this ow)) _ _
               (firstn i sorted) (firstn i (sort widgetCmp ws'))).
    - reflexivity.
    - apply Forall2_take, Hsorted. }
  eexists _, _. split; [reflexivity|]. repeat split; reflexivity.
Qed.

Lemma single_column_positions_witness :
  children stackPanel <> []
  /\ singleCol (dataOf stackPanel 300) = true
  /\ exists r,
       nth_error (_layoutChildren stackPanel 300 0) 2
       = Some (SetOffsetGeometry 0%nat r)
       /\ rect_top r == 116.
Proof.
  assert (H1 : children stackPanel <> []) by discriminate.
  assert (H2 : singleCol (dataOf stackPanel 300) = true) by reflexivity.
  repeat (split; [assumption|]).
  destruct (single_column_positions stackPanel 300 0 H1 H2) as (Hpos & _).
  destruct (Hpos 2%nat (mkWidget 0 1 0 1 1) eq_refl) as (r & Hr & _ & Hy).
  exists r. split; [exact Hr|]. rewrite Hy. reflexivity.
Defined.

(** ** Determinism *)

Lemma run_geometry (es : list Effect) (d : Dom) (k : nat) :
  geometry (run es d) !! k
  = match assigned es k with
    | Some r => Some r
    | None => geometry d !! k
    end.
Proof.
  revert d. induction es as [|e es IH]; intros d; [reflexivity|].
  change (run (e :: es) d) with (run es (perform d e)). rewrite IH. simpl.
  destruct (assigned es k); [reflexivity|].
  destruct e as [w r|h]; simpl; [|reflexivity].
  destruct (Nat.eqb_spec w k) as [->|Hne].
  - apply lookup_insert_eq.
  - apply lookup_insert_ne, Hne.
Qed.

Lemma extent_acc (es : list Effect) (acc : option Q) :
  fold_left (fun acc e => match e with
                          | SetSizerHeight h => Some h
                          | SetOffsetGeometry _ _ => acc
                          end) es acc
  = match extent es with
    | Some h => Some h
    | None => acc
    end.
Proof.
  unfold extent. revert acc. induction es as [|e es IH]; intros acc; [reflexivity|].
  simpl. destruct e as [w r|h].
  - apply IH.
  - rewrite (IH (Some h)). destruct (fold_left _ es None); reflexivity.
Qed.

Lemma run_sizerHeight (es : list Effect) (d : Dom) :
  sizerHeight (run es d)
  = match extent es with
    | Some h => Some h
    | None => sizerHeight d
    end.
Proof.
  revert d. induction es as [|e es IH]; intros d; [reflexivity|].
  change (run (e :: es) d) with (run es (perform d e)). rewrite IH.
  unfold extent at 2. simpl. destruct e as [w r|h]; simpl.
  - reflexivity.
  - rewrite extent_acc. destruct (extent es); reflexivity.
Qed.

Lemma Dom_eq (a b : Dom) :
  geometry a = geometry b -> sizerHeight a = sizerHeight b -> a = b.
Proof. destruct a, b. simpl. intros -> ->. reflexivity. Qed.

Lemma run_idempotent (es : list Effect) (d : Dom) : run es (run es d) = run es d.
Proof.
  apply Dom_eq.
  - apply map_eq. intros k. rewrite !run_geometry. destruct (assigned es k); reflexivity.
  - rewrite !run_sizerHeight. destruct (extent es); reflexivity.
Qed.

Lemma assigned_target (es : list Effect) (k : nat) :
  In k (targets es) -> exists r, assigned es k = Some r.
Proof.
  induction es as [|e es IH]; simpl; [tauto|].
  intros H. apply in_app_or in H. destruct (assigned es k) as [r|] eqn:E; [eauto|].
  destruct H as [H|H]; [|destruct (IH H); discriminate].
  destruct e as [w r|h]; simpl in H; [|tauto].
  destruct H as [->|[]]. rewrite Nat.eqb_refl. eauto.
Qed.

Lemma layoutChildren_targets (this : DashboardPanel) (ow oh : Q) :
  children this <> [] ->
  targets (_layoutChildren this ow oh) = map wid (visitOrder this ow).
Proof.
  intros Hne. unfold visitOrder. destruct (singleCol (dataOf this ow)) eqn:E.
  - rewrite (layoutChildren_single this ow oh Hne E), targets_app_sizer.
    apply singleColLoop_targets.
  - rewrite (layoutChildren_grid this ow oh Hne E), targets_app_sizer.
    apply targets_map_calls.
Qed.

Lemma visitOrder_Permutation (this : DashboardPanel) (ow : Q) :
  Permutation (visitOrder this ow) (children this).
Proof.
  unfold visitOrder. destruct (singleCol _); [apply sort_Permutation|reflexivity].
Qed.

Lemma layoutChildren_extent (this : DashboardPanel) (ow oh : Q) :
  children this <> [] -> exists h, extent (_layoutChildren this ow oh) = Some h.
Proof.
  intros Hne. destruct (singleCol (dataOf this ow)) eqn:E.
  - rewrite (layoutChildren_single this ow oh Hne E), extent_app_sizer. eauto.
  - rewrite (layoutChildren_grid this ow oh Hne E), extent_app_sizer. eauto.
Qed.

Lemma sort_widgets_idempotent (l : list Widget) :
  sort widgetCmp (sort widgetCmp l) = sort widgetCmp l.
Proof.
  apply (sort_idempotent widgetCmp placement_le).
  - exact widgetCmp_le.
  - exact placement_le_total.
  - exact placement_le_trans.
Qed.

(** Had the single-column branch sorted the container's own array rather
    than a copy, the next pass would find the children sorted and do the
    same. *)
Lemma layoutChildren_sorted_children (this : DashboardPanel) (ow oh : Q) :
  singleCol (dataOf this ow) = true ->
  _layoutChildren (withChildren this (sort widgetCmp (children this))) ow oh
  = _layoutChildren this ow oh.
Proof.
  intros Hsingle.
  destruct (children this) as [|w ws] eqn:E.
  { unfold _layoutChildren. rewrite E. reflexivity. }
  rewrite <- E.
  assert (Hne : children this <> []) by congruence.
  assert (Hne' : children (withChildren this (sort widgetCmp (children this))) <> []).
  { simpl. intros H. apply (f_equal (@length Widget)) in H.
    rewrite sort_length, E in H. discriminate H. }
  rewrite (layoutChildren_single this ow oh Hne Hsingle).
  rewrite (layoutChildren_single _ ow oh Hne' Hsingle).
  change (children (withChildren this (sort widgetCmp (children this))))
    with (sort widgetCmp (children this)).
  rewrite sort_widgets_idempotent. reflexivity.
Qed.

(** C9.  A pass is determined by the configuration, the placement list and
    the width: the children are visited in a fixed order, sorted by
    (row, column) in single-column mode and in container order in grid mode;
    the height of the snapshot plays no part, a second pass over the same
    inputs leaves everything as the first did, and whatever the geometry
    and the sizer were before, every child ends with the same rectangle and
    the sizer with the same extent. *)
Theorem layout_deterministic (this : DashboardPanel) (ow oh oh' : Q) (d d' : Dom) :
  let es := _layoutChildren this ow oh in
  (children this <> [] -> targets es = map wid (visitOrder this ow))
  /\ (singleCol (dataOf this ow) = true ->
      visitOrder this ow = sort widgetCmp (children this)
      /\ StronglySorted placement_le (visitOrder this ow))
  /\ (singleCol (dataOf this ow) = false -> visitOrder this ow = children this)
  /\ _layoutChildren this ow oh' = es
  /\ (singleCol (dataOf this ow) = true ->
      _layoutChildren (withChildren this (sort widgetCmp (children this))) ow oh = es)
  /\ run es (run es d) = run es d
  /\ (forall w, In w (children this) ->
      exists r, geometry (run es d) !! wid w = Some r
                /\ geometry (run es d') !! wid w = Some r)
  /\ (children this <> [] ->
      exists h, extent es = Some h
                /\ sizerHeight (run es d) = Some h
                /\ sizerHeight (run es d') = Some h).
Proof.
  intros es.
  split; [apply layoutChildren_targets|].
  split.
  { intros E. unfold visitOrder. rewrite E. split; [reflexivity|].
    apply sort_widgets_sorted. }
  split; [intros E; unfold visitOrder; rewrite E; reflexivity|].
  split; [reflexivity|].
  split; [apply layoutChildren_sorted_children|].
  split; [apply run_idempotent|].
  split.
  - intros w Hw.
    assert (Hne : children this <> []) by (intros E; rewrite E in Hw; exact Hw).
    destruct (assigned_target es (wid w)) as [r Hr].
    { unfold es. rewrite (layoutChildren_targets this ow oh Hne).
      apply in_map.
      eapply Permutation_in; [symmetry; apply visitOrder_Permutation|exact Hw]. }
    exists r. rewrite !run_geometry, Hr. split; reflexivity.
  - intros Hne. destruct (layoutChildren_extent this ow oh Hne) as [h Hh].
    exists h. fold es in Hh. rewrite !run_sizerHeight, Hh. repeat split.
Qed.

Lemma layout_deterministic_witness :
  targets (_layoutChildren stackPanel 300 0) = [2; 1; 0]%nat
  /\ _layoutChildren stackPanel 300 1000 = _layoutChildren stackPanel 300 0
  /\ sizerHeight (run (_layoutChildren stackPanel 300 0) emptyDom)
     = sizerHeight (run (_layoutChildren stackPanel 300 0)
                      {| geometry := ∅; sizerHeight := Some 1 |}).
Proof.
  destruct (layout_deterministic stackPanel 300 0 1000 emptyDom
              {| geometry := ∅; sizerHeight := Some 1 |})
    as (Ht & _ & _ & Hh & _ & _ & _ & Hs).
  split; [rewrite Ht by discriminate; reflexivity|].
  split; [exact Hh|].
  destruct Hs as (h & _ & H1 & H2); [discriminate|].
  rewrite H1, H2. reflexivity.
Defined.

(** ** Coercion at write time *)

Lemma wrap32_range (z : Z) : (- 2 ^ 31 <= wrap32 z < 2 ^ 31)%Z.
Proof.
  unfold wrap32. pose proof (Z.mod_pos_bound (z + 2 ^ 31) (2 ^ 32) ltac:(lia)). lia.
Qed.

Lemma wrap32_small (z : Z) : (- 2 ^ 31 <= z < 2 ^ 31)%Z -> wrap32 z = z.
Proof. intros H. unfold wrap32. rewrite Z.mod_small; lia. Qed.

Lemma Qtrunc_inject_Z (z : Z) : Qtrunc (inject_Z z) = z.
Proof. unfold Qtrunc. simpl. apply Z.quot_1_r. Qed.

Lemma ToInt32_range (v : number) : (- 2 ^ 31 <= ToInt32 v < 2 ^ 31)%Z.
Proof. destruct v; simpl; [apply wrap32_range|lia]. Qed.

(** Truncating after clamping to a bound that is a natural number is
    clamping after truncating. *)
Lemma Qtrunc_clamp (b : Z) (q : Q) :
  (0 <= b)%Z -> Qtrunc (Qmax (inject_Z b) q) = Z.max b (Qtrunc q).
Proof.
  intros Hb. destruct q as [n d].
  unfold Qmax, GenericMinMax.gmax, Qcompare. simpl Qnum. simpl Qden.
  assert (Hd : (0 < Z.pos d)%Z) by lia.
  destruct (Z.compare_spec (b * Z.pos d) (n * 1)%Z) as [E|E|E].
  - change (Qtrunc (inject_Z b)) with (Z.quot b 1). rewrite Z.quot_1_r.
    unfold Qtrunc. simpl. assert (n = (b * Z.pos d)%Z) as -> by lia.
    rewrite Z.quot_mul by lia. lia.
  - unfold Qtrunc. simpl. rewrite Z.quot_div_nonneg by nia.
    assert (b <= n / Z.pos d)%Z by (apply Z.div_le_lower_bound; nia). lia.
  - change (Qtrunc (inject_Z b)) with (Z.quot b 1). rewrite Z.quot_1_r.
    unfold Qtrunc. simpl.
    destruct (Z.le_gt_cases 0 n) as [Hn|Hn].
    + rewrite Z.quot_div_nonneg by lia.
      assert (n / Z.pos d <= b)%Z by (apply Z.div_le_upper_bound; nia). lia.
    + assert (n = - (- n))%Z as -> by lia. rewrite Z.quot_opp_l by lia.
      pose proof (Z.quot_pos (- n) (Z.pos d) ltac:(lia) Hd). lia.
Qed.

Section Coercion.
Variables (b : Z) (v : number).
Hypothesis Hb : (0 <= b <= 1)%Z.

Lemma int_coerce_idempotent :
  Fin (inject_Z (Z.max b (ToInt32 (Fin (inject_Z (Z.max b (ToInt32 v)))))))
  = Fin (inject_Z (Z.max b (ToInt32 v))).
Proof.
  pose proof (ToInt32_range v). cbn [ToInt32]. rewrite Qtrunc_inject_Z.
  rewrite wrap32_small by lia. do 2 f_equal. lia.
Qed.

Lemma int_coerce_in_range (q : Q) :
  v = Fin q -> (- 2 ^ 31 <= Qtrunc q < 2 ^ 31)%Z ->
  Fin (inject_Z (Z.max b (ToInt32 v)))
  = Fin (inject_Z (Qtrunc (Qmax (inject_Z b) q))).
Proof.
  intros -> Hq. cbn [ToInt32]. rewrite wrap32_small by exact Hq.
  rewrite Qtrunc_clamp by lia. reflexivity.
Qed.

End Coercion.

Lemma real_coerce_idempotent (v : number) :
  Math.max_number 0 (Math.max_number 0 v) = Math.max_number 0 v.
Proof.
  destruct v as [q|]; [|reflexivity]. simpl. f_equal.
  destruct (Math_max_cases 0 q) as [[H E]|[H E]]; unfold Math.max in E; rewrite E.
  - exact E.
  - reflexivity.
Qed.

Lemma real_coerce_nonneg (v : number) :
  match Math.max_number 0 v with
  | Fin q => 0 <= q
  | Infinity => True
  end.
Proof.
  destruct v as [q|]; [|exact I]. simpl.
  destruct (Math_max_cases 0 q) as [[H E]|[H E]]; unfold Math.max in E; rewrite E; lra.
Qed.

Lemma get_set (p : Property.t) (o : nat) (v : number) (s : gmap (nat * nat) number) :
  Property.get p o (fst (Property.set p o v s)) = Property.coerce p v.
Proof. unfold Property.get, Property.set. simpl. rewrite lookup_insert_eq. reflexivity. Qed.

Ltac unfold_descriptor :=
  cbn [Field.descriptor Field.int_bound Property.coerce Property.value Property.pid
       aspectRatioProperty columnCountProperty minRowSizeProperty
       minColumnSizeProperty maxRowSizeProperty maxColumnSizeProperty
       rowSpacingProperty columnSpacingProperty rowProperty columnProperty
       rowSpanProperty columnSpanProperty].

Lemma coerce_idempotent (f : Field.t) (v : number) :
  Property.coerce (Field.descriptor f) (Property.coerce (Field.descriptor f) v)
  = Property.coerce (Field.descriptor f) v.
Proof.
  destruct f; unfold_descriptor;
    first [apply real_coerce_idempotent | apply int_coerce_idempotent; lia].
Qed.

Lemma coerce_int (f : Field.t) (b : Z) (v : number) :
  Field.int_bound f = Some b ->
  Property.coerce (Field.descriptor f) v = Fin (inject_Z (Z.max b (ToInt32 v))).
Proof. destruct f; simpl; intros [= <-]; reflexivity. Qed.

Lemma coerce_real (f : Field.t) (v : number) :
  Field.int_bound f = None ->
  Property.coerce (Field.descriptor f) v = Math.max_number 0 v.
Proof. destruct f; simpl; intros H; try discriminate H; reflexivity. Qed.

Lemma int_bound_range (f : Field.t) (b : Z) :
  Field.int_bound f = Some b -> (0 <= b <= 1)%Z.
Proof. destruct f; simpl; intros [= <-]; lia. Qed.

(** A write never fails and always stores a legal value. *)
Lemma coerce_legal (f : Field.t) (v : number) :
  legal f (Property.coerce (Field.descriptor f) v).
Proof.
  unfold legal. destruct (Field.int_bound f) as [b|] eqn:E.
  - rewrite (coerce_int f b v E). eexists. split; [reflexivity|].
    pose proof (ToInt32_range v). pose proof (int_bound_range f b E). lia.
  - rewrite (coerce_real f v E). apply real_coerce_nonneg.
Qed.

Lemma default_legal (f : Field.t) : legal f (Property.value (Field.descriptor f)).
Proof.
  destruct f; unfold legal; unfold_descriptor;
    first [exact I | discriminate | eexists; split; [reflexivity|lia]].
Qed.

Lemma pid_inj (f f' : Field.t) :
  Property.pid (Field.descriptor f) = Property.pid (Field.descriptor f') -> f = f'.
Proof. destruct f, f'; simpl; intros H; first [reflexivity | discriminate H]. Qed.

(** Stores built by writes hold legal values only, and so do reads. *)
Lemma store_ok_empty : store_ok ∅.
Proof. intros f o v H. rewrite lookup_empty in H. discriminate H. Qed.

Lemma store_ok_set (f : Field.t) (o : nat) (v : number) (s : gmap (nat * nat) number) :
  store_ok s -> store_ok (fst (Property.set (Field.descriptor f) o v s)).
Proof.
  intros Hs f' o' v'. unfold Property.set. simpl.
  destruct (decide ((o, Property.pid (Field.descriptor f))
                    = (o', Property.pid (Field.descriptor f')))) as [E|E].
  - rewrite E, lookup_insert_eq. intros [= <-].
    injection E as _ E. apply pid_inj in E. subst f'. apply coerce_legal.
  - rewrite lookup_insert_ne by exact E. apply Hs.
Qed.

Lemma get_legal (f : Field.t) (o : nat) (s : gmap (nat * nat) number) :
  store_ok s -> legal f (Property.get (Field.descriptor f) o s).
Proof.
  intros Hs. unfold Property.get.
  destruct (s !! (o, Property.pid (Field.descriptor f))) as [v|] eqn:E; simpl.
  - apply (Hs f o v E).
  - apply default_legal.
Qed.

(** The placement a pass reads for a widget satisfies the bounds the
    layout relies on. *)
Lemma read_placement_ok (o : nat) (limits : SizeLimits) (s : gmap (nat * nat) number) :
  store_ok s ->
  exists r c rs cs,
    Property.get rowProperty o s = Fin (inject_Z r)
    /\ Property.get columnProperty o s = Fin (inject_Z c)
    /\ Property.get rowSpanProperty o s = Fin (inject_Z rs)
    /\ Property.get columnSpanProperty o s = Fin (inject_Z cs)
    /\ widget_ok {| wid := o; getRow := r; getColumn := c; getRowSpan := rs;
                     getColumnSpan := cs; sizeLimits := limits |}.
Proof.
  intros Hs.
  destruct (get_legal Field.row o s Hs) as (r & Hr & Hr').
  destruct (get_legal Field.column o s Hs) as (c & Hc & Hc').
  destruct (get_legal Field.rowSpan o s Hs) as (rs & Hrs & Hrs').
  destruct (get_legal Field.columnSpan o s Hs) as (cs & Hcs & Hcs').
  exists r, c, rs, cs. simpl in *. unfold widget_ok. simpl.
  repeat split; first [assumption | lia].
Qed.

(** The configuration a pass reads for a panel satisfies the bounds the
    layout relies on, whenever its real-valued lower bounds and aspect ratio
    are finite. *)
Lemma read_config_ok (o : nat) (box : BoxSizing) (ws : list Widget)
    (s : gmap (nat * nat) number) :
  store_ok s ->
  exists cc rsp csp,
    Property.get columnCountProperty o s = Fin (inject_Z cc)
    /\ Property.get rowSpacingProperty o s = Fin (inject_Z rsp)
    /\ Property.get columnSpacingProperty o s = Fin (inject_Z csp)
    /\ forall ar minR minC,
         Property.get aspectRatioProperty o s = Fin ar ->
         Property.get minRowSizeProperty o s = Fin minR ->
         Property.get minColumnSizeProperty o s = Fin minC ->
         panel_ok {| aspectRatio := ar; columnCount := cc;
                     minRowSize := minR; minColumnSize := minC;
                     maxRowSize := Property.get maxRowSizeProperty o s;
                     maxColumnSize := Property.get maxColumnSizeProperty o s;
                     rowSpacing := rsp; columnSpacing := csp;
                     boxSizing := box; children := ws |}.
Proof.
  intros Hs.
  destruct (get_legal Field.columnCount o s Hs) as (cc & Hcc & Hcc').
  destruct (get_legal Field.rowSpacing o s Hs) as (rsp & Hrsp & Hrsp').
  destruct (get_legal Field.columnSpacing o s Hs) as (csp & Hcsp & Hcsp').
  pose proof (get_legal Field.aspectRatio o s Hs) as Har.
  pose proof (get_legal Field.minRowSize o s Hs) as HminR.
  pose proof (get_legal Field.minColumnSize o s Hs) as HminC.
  exists cc, rsp, csp. simpl in *. repeat (split; [assumption|]).
  intros ar minR minC Ear EminR EminC. unfold legal in Har, HminR, HminC.
  simpl in Har, HminR, HminC. rewrite Ear in Har. rewrite EminR in HminR.
  rewrite EminC in HminC. unfold panel_ok. simpl.
  repeat split; first [assumption | lia].
Qed.

(** *** The coercions over every JavaScript number *)

Lemma js_get_set (p : Js.property) (o : nat) (v : Js.t) (s : gmap (nat * nat) Js.t) :
  Js.get p o (Js.set p o v s) = Js.coerce p v.
Proof. unfold Js.get, Js.set. rewrite lookup_insert_eq. reflexivity. Qed.

(** On a finite number or [Infinity] the coercions are those of the
    descriptors over [number]. *)
Lemma js_coerce_num (f : Field.t) (x : number) :
  Js.coerce (Js.descriptor f) (Js.Num x)
  = Js.Num (Property.coerce (Field.descriptor f) x).
Proof. destruct f; reflexivity. Qed.

Lemma js_coerce_int (f : Field.t) (b : Z) (v : Js.t) :
  Field.int_bound f = Some b ->
  Js.coerce (Js.descriptor f) v = Js.Num (Fin (inject_Z (Z.max b (Js.ToInt32 v)))).
Proof. destruct f; simpl; intros [= <-]; reflexivity. Qed.

Lemma js_coerce_real (f : Field.t) (v : Js.t) :
  Field.int_bound f = None -> Js.coerce (Js.descriptor f) v = Js.max 0 v.
Proof. destruct f; simpl; intros H; try discriminate H; reflexivity. Qed.

Lemma js_coerce_idempotent (f : Field.t) (v : Js.t) :
  Js.coerce (Js.descriptor f) (Js.coerce (Js.descriptor f) v)
  = Js.coerce (Js.descriptor f) v.
Proof.
  destruct v as [| |x].
  - destruct f; reflexivity.
  - destruct f; reflexivity.
  - rewrite !js_coerce_num. f_equal. apply coerce_idempotent.
Qed.

(** A write stores a legal value, unless it writes [NaN] to a real-valued
    field. *)
Lemma js_coerce_legal (f : Field.t) (v : Js.t) :
  (Field.int_bound f = None -> v <> Js.NaN) ->
  Js.legal f (Js.coerce (Js.descriptor f) v).
Proof.
  intros Hv. destruct v as [| |x].
  - destruct (Field.int_bound f) as [b|] eqn:E.
    + rewrite (js_coerce_int f b _ E). unfold Js.legal, legal. rewrite E.
      eexists. split; [reflexivity|].
      pose proof (int_bound_range f b E). simpl. lia.
    + exfalso. apply Hv; reflexivity.
  - destruct (Field.int_bound f) as [b|] eqn:E.
    + rewrite (js_coerce_int f b _ E). unfold Js.legal, legal. rewrite E.
      eexists. split; [reflexivity|].
      pose proof (int_bound_range f b E). simpl. lia.
    + rewrite (js_coerce_real f _ E). unfold Js.legal, legal. rewrite E.
      simpl. lra.
  - rewrite js_coerce_num. apply coerce_legal.
Qed.

Lemma js_default_legal (f : Field.t) : Js.legal f (Js.value (Js.descriptor f)).
Proof.
  assert (E : Js.value (Js.descriptor f)
              = Js.Num (Property.value (Field.descriptor f)))
    by (destruct f; reflexivity).
  rewrite E. apply default_legal.
Qed.

Lemma js_pid (f : Field.t) :
  Js.pid (Js.descriptor f) = Property.pid (Field.descriptor f).
Proof. destruct f; reflexivity. Qed.

Lemma js_store_ok_empty : Js.store_ok ∅.
Proof. intros f o v H. rewrite lookup_empty in H. discriminate H. Qed.

Lemma js_store_ok_set (f : Field.t) (o : nat) (v : Js.t) (s : gmap (nat * nat) Js.t) :
  (Field.int_bound f = None -> v <> Js.NaN) ->
  Js.store_ok s -> Js.store_ok (Js.set (Js.descriptor f) o v s).
Proof.
  intros Hv Hs f' o' v'. unfold Js.set.
  destruct (decide ((o, Js.pid (Js.descriptor f))
                    = (o', Js.pid (Js.descriptor f')))) as [E|E].
  - rewrite E, lookup_insert_eq. intros [= <-].
    injection E as _ E. rewrite !js_pid in E. apply pid_inj in E. subst f'.
    apply js_coerce_legal, Hv.
  - rewrite lookup_insert_ne by exact E. apply Hs.
Qed.

Lemma js_get_legal (f : Field.t) (o : nat) (s : gmap (nat * nat) Js.t) :
  Js.store_ok s -> Js.legal f (Js.get (Js.descriptor f) o s).
Proof.
  intros Hs. unfold Js.get.
  destruct (s !! (o, Js.pid (Js.descriptor f))) as [v|] eqn:E; simpl.
  - apply (Hs f o v E).
  - apply js_default_legal.
Qed.

Lemma js_writeAll_store_ok (ws : list (Field.t * nat * Js.t))
    (s : gmap (nat * nat) Js.t) :
  Forall Js.clean ws -> Js.store_ok s -> Js.store_ok (Js.writeAll ws s).
Proof.
  intros Hws. revert s. induction Hws as [|w ws Hw _ IH]; intros s Hs.
  - exact Hs.
  - simpl. apply IH. destruct w as [[f o] v]. apply js_store_ok_set; assumption.
Qed.

Lemma js_writeAll_app (ws ws' : list (Field.t * nat * Js.t))
    (s : gmap (nat * nat) Js.t) :
  Js.writeAll (ws ++ ws') s = Js.writeAll ws' (Js.writeAll ws s).
Proof. unfold Js.writeAll. apply fold_left_app. Qed.

(** C8, as the descriptors compute it, for everything a caller can write.
    A set followed by a get returns the coercion of the written value; the
    write never fails, and coercion is idempotent.  An integer field stores
    [max(bound, value | 0)], always a legal value: for a finite written
    value whose integer part lies in the signed 32-bit range this is the
    value clamped to the bound and then truncated toward zero; outside that
    range [value | 0] wraps modulo 2^32, and [NaN], [Infinity] and
    [-Infinity] give the bound.  A real-valued field stores
    [Math.max(0, value)]: a number is clamped to the lower bound 0,
    [-Infinity] becomes 0, and [NaN] is stored as [NaN], the one write that
    stores no legal value.  Writing -3 to the aspect ratio reads back 0,
    and writing 0.7 to the row span reads back 1. *)
Theorem coercion_round_trip (f : Field.t) (o : nat) (v : Js.t)
    (s : gmap (nat * nat) Js.t) :
  let p := Js.descriptor f in
  Js.get p o (Js.set p o v s) = Js.coerce p v
  /\ Js.coerce p (Js.coerce p v) = Js.coerce p v
  /\ (forall b, Field.int_bound f = Some b ->
      Js.coerce p v = Js.Num (Fin (inject_Z (Z.max b (Js.ToInt32 v))))
      /\ Js.legal f (Js.coerce p v)
      /\ (v = Js.NaN \/ v = Js.NegInfinity \/ v = Js.Num Infinity ->
          Js.coerce p v = Js.Num (Fin (inject_Z b))))
  /\ (Field.int_bound f = None ->
      Js.coerce p v = Js.max 0 v
      /\ (v <> Js.NaN -> Js.legal f (Js.coerce p v))
      /\ (v = Js.NaN -> Js.coerce p v = Js.NaN)
      /\ (v = Js.NegInfinity -> Js.coerce p v = Js.Num (Fin 0))
      /\ (forall x, v = Js.Num x -> Js.coerce p v = Js.Num (spec_coerce f x)))
  /\ (forall q, v = Js.Num (Fin q) -> (- 2 ^ 31 <= Qtrunc q < 2 ^ 31)%Z ->
      Js.coerce p v = Js.Num (spec_coerce f (Fin q)))
  /\ Js.get Js.aspectRatioProperty o
       (Js.set Js.aspectRatioProperty o (Js.Num (Fin (-3))) s) = Js.Num (Fin 0)
  /\ Js.get Js.rowSpanProperty o
       (Js.set Js.rowSpanProperty o (Js.Num (Fin (7 # 10))) s) = Js.Num (Fin 1).
Proof.
  intros p. split; [apply js_get_set|].
  split; [apply js_coerce_idempotent|].
  split.
  { intros b E. split; [apply js_coerce_int, E|].
    split; [apply js_coerce_legal; rewrite E; discriminate|].
    pose proof (int_bound_range f b E) as Hb.
    intros [->|[->| ->]]; unfold p; rewrite (js_coerce_int f b _ E); simpl;
      do 3 f_equal; lia. }
  split.
  { intros E. split; [apply js_coerce_real, E|].
    split; [intros Hv; apply js_coerce_legal; intros _; exact Hv|].
    split; [intros ->; unfold p; rewrite (js_coerce_real f _ E); reflexivity|].
    split; [intros ->; unfold p; rewrite (js_coerce_real f _ E); reflexivity|].
    intros x ->. unfold p. rewrite js_coerce_num. f_equal.
    unfold spec_coerce. rewrite E. apply coerce_real, E. }
  split.
  { intros q -> Hq. unfold p. rewrite js_coerce_num. f_equal.
    unfold spec_coerce. destruct (Field.int_bound f) as [b|] eqn:E.
    - rewrite (coerce_int f b _ E).
      apply int_coerce_in_range; [apply (int_bound_range f b E)|reflexivity|exact Hq].
    - apply coerce_real, E. }
  split; rewrite js_get_set; reflexivity.
Qed.

Lemma coercion_round_trip_witness :
  Js.get Js.columnCountProperty 7%nat
    (Js.set Js.columnCountProperty 7%nat (Js.Num (Fin (-5 # 2))) ∅)
  = Js.Num (Fin 1)
  /\ Js.get Js.maxRowSizeProperty 7%nat
       (Js.set Js.maxRowSizeProperty 7%nat Js.NegInfinity ∅) = Js.Num (Fin 0).
Proof.
  split.
  - refine (eq_trans
      (proj1 (coercion_round_trip Field.columnCount 7%nat (Js.Num (Fin (-5 # 2))) ∅)) _).
    reflexivity.
  - refine (eq_trans
      (proj1 (coercion_round_trip Field.maxRowSize 7%nat Js.NegInfinity ∅)) _).
    reflexivity.
Defined.

(** The claim C8 as stated fails in two places.  Outside the 32-bit range
    an integer field does not saturate: writing 2147483648 to the row span
    reads back 1, where clamping to the bound and truncating toward zero
    gives 2147483648.  And a write of [NaN] to a real-valued field stores
    [NaN], which is no legal value: writing [NaN] to the aspect ratio reads
    back [NaN]. *)
Lemma coercion_counterexample :
  Js.get Js.rowSpanProperty 0%nat
    (Js.set Js.rowSpanProperty 0%nat (Js.Num (Fin 2147483648)) ∅) = Js.Num (Fin 1)
  /\ spec_coerce Field.rowSpan (Fin 2147483648) = Fin 2147483648
  /\ Js.get Js.aspectRatioProperty 0%nat
       (Js.set Js.aspectRatioProperty 0%nat Js.NaN ∅) = Js.NaN
  /\ ~ Js.legal Field.aspectRatio Js.NaN
  /\ ~ Js.spec_round_trip.
Proof.
  split; [reflexivity|]. split; [reflexivity|]. split; [reflexivity|].
  split; [intros H; exact H|].
  intros H. destruct (H Field.aspectRatio 0%nat Js.NaN ∅) as [Hl _].
  exact Hl.
Qed.

(** ** More on the layout data *)


Lemma Qdiv_le_iff (a c m : Q) : 0 < c -> (m <= a / c <-> m * c <= a).
Proof.
  intros Hc.
  assert (E : c * (a / c) == a) by (apply Qmult_div_r; lra).
  split; intros H; nra.
Qed.


(** X2.  Whenever the resolved column size is a number, it is not below
    [minColumnSize], and not above [maxColumnSize] if that is not below the
    minimum; likewise the resolved row size with [minRowSize] and
    [maxRowSize], in both modes.  The column size is a number whenever the
    inner width, the ideal column size and the two column bounds are; the
    row size need not be one: an infinite aspect ratio at column size 0
    gives [NaN]. *)
Theorem layoutData_bounds (this : Float64.DashboardPanel) (w : spec_float) :
  let d := Float64._layoutData this w in
  (Float64.isNaN (Float64.colSize d) = false ->
   Float64.leb (Float64.minColumnSize this) (Float64.colSize d) = true
   /\ (Float64.leb (Float64.minColumnSize this) (Float64.maxColumnSize this) = true ->
       Float64.leb (Float64.colSize d) (Float64.maxColumnSize this) = true))
  /\ (Float64.isNaN (Float64.rowSize d) = false ->
      Float64.leb (Float64.minRowSize this) (Float64.rowSize d) = true
      /\ (Float64.leb (Float64.minRowSize this) (Float64.maxRowSize this) = true ->
          Float64.leb (Float64.rowSize d) (Float64.maxRowSize this) = true))
  /\ (Float64.isNaN w = false ->
      Float64.isNaN (Float64.idealColSize this w) = false ->
      Float64.isNaN (Float64.minColumnSize this) = false ->
      Float64.isNaN (Float64.maxColumnSize this) = false ->
      Float64.isNaN (Float64.colSize d) = false)
  /\ Float64.singleCol (Float64._layoutData Float64.steepPanel (Float64.of_Z 0)) = false
  /\ Float64.colSize (Float64._layoutData Float64.steepPanel (Float64.of_Z 0))
     = Float64.of_Z 0
  /\ Float64.rowSize (Float64._layoutData Float64.steepPanel (Float64.of_Z 0))
     = S754_nan.
Proof.
  intros d. subst d.
  split; [|split; [|split]].
  - destruct (Float64.ltb (Float64.idealColSize this w) (Float64.minColumnSize this))
      eqn:E;
      [rewrite (layoutData_double_single this w E)
      |rewrite (layoutData_double_grid this w E)]; simpl; intros H;
      destruct (double_clamp_number _ _ _ H) as (Hv & Hlo & Hhi);
      destruct (double_clamp_bounds _ _ _ Hv Hlo Hhi) as (_ & H1 & H2 & _);
      split; assumption.
  - destruct (Float64.ltb (Float64.idealColSize this w) (Float64.minColumnSize this))
      eqn:E;
      [rewrite (layoutData_double_single this w E)
      |rewrite (layoutData_double_grid this w E)]; simpl; intros H.
    + split; [apply double_leb_refl, H|]. intros H'; exact H'.
    + destruct (double_clamp_number _ _ _ H) as (Hv & Hlo & Hhi).
      destruct (double_clamp_bounds _ _ _ Hv Hlo Hhi) as (_ & H1 & H2 & _).
      split; assumption.
  - intros Hw Hi Hlo Hhi.
    destruct (Float64.ltb (Float64.idealColSize this w) (Float64.minColumnSize this))
      eqn:E;
      [rewrite (layoutData_double_single this w E)
      |rewrite (layoutData_double_grid this w E)]; simpl;
      apply double_clamp_bounds; assumption.
  - split; [vm_compute; reflexivity|]. split; vm_compute; reflexivity.
Qed.




(** ** More on the pass *)

(** X4.  A pass over a panel without children does nothing; a pass over
    [n >= 1] children makes exactly [n] [setOffsetGeometry] calls followed by
    one write of the sizer, and the calls address each child once. *)
Theorem layoutChildren_calls (this : DashboardPanel) (ow oh : Q) :
  (children this = [] -> _layoutChildren this ow oh = [])
  /\ Permutation (targets (_layoutChildren this ow oh)) (map wid (children this))
  /\ (children this <> [] ->
      exists calls h,
        _layoutChildren this ow oh = calls ++ [SetSizerHeight h]
        /\ length calls = length (children this)
        /\ targets calls = map wid (visitOrder this ow)).
Proof.
  split; [intros E; unfold _layoutChildren; rewrite E; reflexivity|].
  split.
  - destruct (children this) as [|w ws] eqn:E.
    + unfold _layoutChildren. rewrite E. reflexivity.
    + rewrite <- E. rewrite layoutChildren_targets by congruence.
      apply Permutation_map, visitOrder_Permutation.
  - intros Hne. unfold visitOrder.
    destruct (singleCol (dataOf this ow)) eqn:E.
    + rewrite (layoutChildren_single this ow oh Hne E).
      eexists _, _. split; [reflexivity|].
      split; [rewrite singleColLoop_length; apply sort_length|].
      apply singleColLoop_targets.
    + rewrite (layoutChildren_grid this ow oh Hne E).
      eexists _, _. split; [reflexivity|].
      split; [apply length_map|apply targets_map_calls].
Qed.

Lemma maxRowOf_Permutation (ws ws' : list Widget) :
  Permutation ws ws' -> maxRowOf ws = maxRowOf ws'.
Proof. induction 1; simpl; lia. Qed.

(** X5.  In grid mode the rectangle of a child depends on the panel's
    configuration and on the child alone: whatever its siblings and its
    position among them, it gets the same rectangle; and the extent does not
    depend on the order of the children. *)
Theorem grid_rect_independent_of_siblings (this : DashboardPanel) (ow oh : Q)
    (ws ws' : list Widget) (i j : nat) (w : Widget) :
  singleCol (dataOf this ow) = false ->
  nth_error ws i = Some w ->
  nth_error ws' j = Some w ->
  (exists r,
     nth_error (_layoutChildren (withChildren this ws) ow oh) i
     = Some (SetOffsetGeometry (wid w) r)
     /\ nth_error (_layoutChildren (withChildren this ws') ow oh) j
        = Some (SetOffsetGeometry (wid w) r))
  /\ (Permutation ws ws' ->
      extent (_layoutChildren (withChildren this ws) ow oh)
      = extent (_layoutChildren (withChildren this ws') ow oh)).
Proof.
  intros Hgrid Hi Hj.
  assert (Hne : children (withChildren this ws) <> [])
    by (simpl; intros E; rewrite E in Hi; destruct i; discriminate).
  assert (Hne' : children (withChildren this ws') <> [])
    by (simpl; intros E; rewrite E in Hj; destruct j; discriminate).
  rewrite (layoutChildren_grid (withChildren this ws) ow oh Hne Hgrid).
  rewrite (layoutChildren_grid (withChildren this ws') ow oh Hne' Hgrid).
  split.
  - exists (gridRectOf this ow w). split.
    + apply (nth_error_calls
               (fun w => SetOffsetGeometry (wid w) (gridRectOf (withChildren this ws) ow w))
               _ _ _ _ Hi).
    + apply (nth_error_calls
               (fun w => SetOffsetGeometry (wid w) (gridRectOf (withChildren this ws') ow w))
               _ _ _ _ Hj).
  - intros Hp. rewrite !extent_app_sizer. simpl.
    rewrite (maxRowOf_Permutation ws ws' Hp). reflexivity.
Qed.

Lemma grid_rect_independent_of_siblings_witness :
  singleCol (dataOf stackPanel 1288) = false
  /\ nth_error threeWidgets 1 = Some (mkWidget 1 0 5 1 1)
  /\ nth_error [mkWidget 1 0 5 1 1] 0 = Some (mkWidget 1 0 5 1 1)
  /\ exists r,
       nth_error (_layoutChildren (withChildren stackPanel threeWidgets) 1288 0) 1
       = Some (SetOffsetGeometry 1%nat r)
       /\ nth_error
            (_layoutChildren (withChildren stackPanel [mkWidget 1 0 5 1 1]) 1288 0) 0
          = Some (SetOffsetGeometry 1%nat r).
Proof.
  assert (H1 : singleCol (dataOf stackPanel 1288) = false) by reflexivity.
  assert (H2 : nth_error threeWidgets 1 = Some (mkWidget 1 0 5 1 1)) by reflexivity.
  assert (H3 : nth_error [mkWidget 1 0 5 1 1] 0 = Some (mkWidget 1 0 5 1 1))
    by reflexivity.
  repeat (split; [assumption|]).
  exact (proj1 (grid_rect_independent_of_siblings stackPanel 1288 0 threeWidgets
                 [mkWidget 1 0 5 1 1] 1 0 (mkWidget 1 0 5 1 1) H1 H2 H3)).
Defined.








(** ** More on the single-column mode *)



Lemma sorted_Permutation_eq {A} (le : A -> A -> Prop) (l1 l2 : list A) :
  StronglySorted le l1 -> StronglySorted le l2 -> Permutation l1 l2 ->
  (forall a b, In a l1 -> In b l1 -> le a b -> le b a -> a = b) ->
  l1 = l2.
Proof.
  intros H1. revert l2. induction H1 as [|a l1 Hs1 IH Ha]; intros l2 H2 Hp Hanti.
  - symmetry. apply Permutation.Permutation_nil, Hp.
  - destruct H2 as [|b l2 Hs2 Hb].
    + apply Permutation_sym, Permutation.Permutation_nil in Hp. discriminate Hp.
    + assert (Hab : a = b).
      { assert (Ina : In a (b :: l2))
          by (eapply Permutation_in; [exact Hp|left; reflexivity]).
        assert (Inb : In b (a :: l1))
          by (eapply Permutation_in; [symmetry; exact Hp|left; reflexivity]).
        destruct Ina as [E|Ina]; [congruence|].
        destruct Inb as [E|Inb]; [congruence|].
        rewrite List.Forall_forall in Ha, Hb.
        apply Hanti; [left; reflexivity|right; exact Inb|apply Ha, Inb|apply Hb, Ina]. }
      subst b. f_equal. apply IH; [exact Hs2| |].
      * eapply Permutation.Permutation_cons_inv, Hp.
      * intros x y Hx Hy. apply Hanti; right; assumption.
Qed.

Lemma placementKey_inj (ws : list Widget) (a b : Widget) :
  List.NoDup (map placementKey ws) -> In a ws -> In b ws ->
  placementKey a = placementKey b -> a = b.
Proof.
  induction ws as [|x ws IH]; simpl; [tauto|].
  intros Hnd Ha Hb E. apply List.NoDup_cons_iff in Hnd. destruct Hnd as [Hx Hnd].
  destruct Ha as [->|Ha], Hb as [->|Hb].
  - reflexivity.
  - exfalso. apply Hx. rewrite E. apply in_map, Hb.
  - exfalso. apply Hx. rewrite <- E. apply in_map, Ha.
  - apply IH; assumption.
Qed.

Lemma placement_le_antisym (a b : Widget) :
  placement_le a b -> placement_le b a -> placementKey a = placementKey b.
Proof. unfold placement_le, placementKey. intros H1 H2. f_equal; lia. Qed.

(** X10.  In single-column mode the container order of the children does
    not matter when their (row, column) pairs are distinct: any reordering of
    the children yields the same calls in the same order and the same
    extent. *)
Theorem single_column_order_independent (this : DashboardPanel) (ow oh : Q)
    (ws ws' : list Widget) :
  singleCol (dataOf this ow) = true ->
  Permutation ws ws' ->
  List.NoDup (map placementKey ws) ->
  sort widgetCmp ws' = sort widgetCmp ws
  /\ _layoutChildren (withChildren this ws') ow oh
     = _layoutChildren (withChildren this ws) ow oh.
Proof.
  intros Hsingle Hp Hnd.
  assert (Hsort : sort widgetCmp ws' = sort widgetCmp ws).
  { symmetry. apply (sorted_Permutation_eq placement_le).
    - apply sort_widgets_sorted.
    - apply sort_widgets_sorted.
    - rewrite !sort_Permutation. exact Hp.
    - intros a b Ha Hb Hab Hba.
      apply (placementKey_inj ws); [exact Hnd| | |apply placement_le_antisym; assumption].
      + eapply Permutation_in; [apply sort_Permutation|exact Ha].
      + eapply Permutation_in; [apply sort_Permutation|exact Hb]. }
  split; [exact Hsort|].
  destruct ws as [|w ws0].
  - apply Permutation.Permutation_nil in Hp. subst ws'. reflexivity.
  - assert (Hne : children (withChildren this (w :: ws0)) <> []) by discriminate.
    assert (Hne' : children (withChildren this ws') <> []).
    { simpl. intros ->. apply Permutation_sym, Permutation.Permutation_nil in Hp.
      discriminate Hp. }
    rewrite (layoutChildren_single (withChildren this (w :: ws0)) ow oh Hne Hsingle).
    rewrite (layoutChildren_single (withChildren this ws') ow oh Hne' Hsingle).
    change (children (withChildren this ws')) with ws'.
    change (children (withChildren this (w :: ws0))) with (w :: ws0).
    rewrite Hsort. reflexivity.
Qed.

Lemma single_column_order_independent_witness :
  singleCol (dataOf stackPanel 300) = true
  /\ Permutation threeWidgets (rev threeWidgets)
  /\ List.NoDup (map placementKey threeWidgets)
  /\ _layoutChildren (withChildren stackPanel (rev threeWidgets)) 300 0
     = _layoutChildren (withChildren stackPanel threeWidgets) 300 0.
Proof.
  assert (H1 : singleCol (dataOf stackPanel 300) = true) by reflexivity.
  assert (H2 : Permutation threeWidgets (rev threeWidgets)) by apply Permutation_rev.
  assert (H3 : List.NoDup (map placementKey threeWidgets)).
  { unfold threeWidgets. simpl.
    repeat (apply List.NoDup_cons;
            [simpl; intros H;
             repeat (destruct H as [H|H]; [discriminate H|]); exact H|]).
    apply List.NoDup_nil. }
  repeat (split; [assumption|]).
  exact (proj2 (single_column_order_independent stackPanel 300 0 threeWidgets
                  (rev threeWidgets) H1 H2 H3)).
Defined.

(** X11.  [widgetCmp] is a consistent comparator: swapping the arguments
    negates the result, the result is zero exactly for equal (row, column)
    pairs, negative exactly for a smaller row or an equal row and a smaller
    column, and "not greater" is transitive. *)
Theorem widgetCmp_consistent (a b c : Widget) :
  widgetCmp b a = (- widgetCmp a b)%Z
  /\ (widgetCmp a b = 0%Z <-> placementKey a = placementKey b)
  /\ ((widgetCmp a b < 0)%Z
      <-> (getRow a < getRow b)%Z
          \/ (getRow a = getRow b /\ (getColumn a < getColumn b)%Z))
  /\ ((widgetCmp a b <= 0)%Z -> (widgetCmp b c <= 0)%Z -> (widgetCmp a c <= 0)%Z).
Proof.
  unfold widgetCmp, placementKey.
  destruct (Z.eqb_spec (getRow a) (getRow b)), (Z.eqb_spec (getRow b) (getRow a)),
    (Z.eqb_spec (getRow b) (getRow c)), (Z.eqb_spec (getRow a) (getRow c)); simpl;
    repeat split; intros; try lia; try (f_equal; lia);
    match goal with
    | H : (_, _) = (_, _) |- _ => injection H as ? ?; lia
    | _ => idtac
    end.
Qed.

(** ** More on coercion *)

(** X12.  Coercion changes no legal value: a value that is legal for a
    field is numerically its own coercion (and identically so for an integer
    field), and the default of every field is legal and is its own
    coercion. *)
Theorem coerce_fixes_legal (f : Field.t) (v : number) :
  legal f v ->
  number_eqb (Property.coerce (Field.descriptor f) v) v = true
  /\ (forall b, Field.int_bound f = Some b -> Property.coerce (Field.descriptor f) v = v)
  /\ legal f (Property.value (Field.descriptor f))
  /\ Property.coerce (Field.descriptor f) (Property.value (Field.descriptor f))
     = Property.value (Field.descriptor f).
Proof.
  intros Hv.
  assert (Hint : forall b, Field.int_bound f = Some b ->
                 Property.coerce (Field.descriptor f) v = v).
  { intros b E. unfold legal in Hv. rewrite E in Hv. destruct Hv as (z & -> & Hz).
    rewrite (coerce_int f b _ E). cbn [ToInt32]. rewrite Qtrunc_inject_Z.
    pose proof (int_bound_range f b E).
    rewrite wrap32_small by lia. do 2 f_equal. lia. }
  split; [|split; [exact Hint|split; [apply default_legal|]]].
  - destruct (Field.int_bound f) as [b|] eqn:E.
    + rewrite (Hint b eq_refl). destruct v as [q|]; simpl; [|reflexivity].
      apply Qeq_bool_iff. reflexivity.
    + unfold legal in Hv. rewrite E in Hv. rewrite (coerce_real f v E).
      destruct v as [q|]; simpl; [|reflexivity].
      apply Qeq_bool_iff.
      destruct (Math_max_cases 0 q) as [[H1 H2]|[H1 H2]]; unfold Math.max in H2;
        rewrite H2; lra.
  - destruct f; reflexivity.
Qed.

Lemma coerce_fixes_legal_witness :
  legal Field.columnCount (Fin 12)
  /\ Property.coerce columnCountProperty (Fin 12) = Fin 12.
Proof.
  assert (H : legal Field.columnCount (Fin 12)).
  { exists 12%Z. split; [reflexivity|]. split; vm_compute; congruence. }
  split; [exact H|].
  exact (proj1 (proj2 (coerce_fixes_legal Field.columnCount (Fin 12) H)) 1%Z eq_refl).
Defined.

(** X15.  After any sequence of writes none of which writes [NaN] to a
    real-valued field, every read of any field of any owner is a legal
    value of that field: an integer of 32 bits not below the field's bound
    for the integer fields, [Infinity] or a number not below 0 for the
    others.  A [NaN] written to a real-valued field is what the next read
    of that field returns, whatever was written before. *)
Theorem reads_after_writes_legal (ws : list (Field.t * nat * Js.t))
    (f : Field.t) (o : nat) :
  (Forall Js.clean ws ->
   Js.legal f (Js.get (Js.descriptor f) o (Js.writeAll ws ∅))
   /\ (forall b, Field.int_bound f = Some b ->
       exists z, Js.get (Js.descriptor f) o (Js.writeAll ws ∅)
                 = Js.Num (Fin (inject_Z z))
                 /\ (b <= z < 2 ^ 31)%Z)
   /\ (Field.int_bound f = None ->
       Js.get (Js.descriptor f) o (Js.writeAll ws ∅) = Js.Num Infinity
       \/ exists q, Js.get (Js.descriptor f) o (Js.writeAll ws ∅) = Js.Num (Fin q)
                    /\ 0 <= q))
  /\ (Field.int_bound f = None ->
      Js.get (Js.descriptor f) o (Js.writeAll (ws ++ [(f, o, Js.NaN)]) ∅) = Js.NaN).
Proof.
  split.
  - intros Hws.
    pose proof (js_get_legal f o _ (js_writeAll_store_ok ws ∅ Hws js_store_ok_empty))
      as H.
    split; [exact H|].
    destruct (Js.get (Js.descriptor f) o (Js.writeAll ws ∅)) as [| |x];
      try contradiction.
    unfold Js.legal, legal in H. split.
    + intros b E. rewrite E in H. destruct H as (z & -> & Hz). exists z.
      split; [reflexivity|exact Hz].
    + intros E. rewrite E in H. destruct x as [q|].
      * right. exists q. split; [reflexivity|exact H].
      * left. reflexivity.
  - intros E. rewrite js_writeAll_app. simpl. rewrite js_get_set.
    rewrite (js_coerce_real f _ E). reflexivity.
Qed.

Lemma reads_after_writes_legal_witness :
  Forall Js.clean [(Field.rowSpan, 1%nat, Js.NaN);
                   (Field.aspectRatio, 1%nat, Js.NegInfinity)]
  /\ Js.legal Field.rowSpan
       (Js.get Js.rowSpanProperty 1%nat
          (Js.writeAll [(Field.rowSpan, 1%nat, Js.NaN);
                        (Field.aspectRatio, 1%nat, Js.NegInfinity)] ∅)).
Proof.
  assert (H : Forall Js.clean [(Field.rowSpan, 1%nat, Js.NaN);
                               (Field.aspectRatio, 1%nat, Js.NegInfinity)]).
  { repeat constructor; unfold Js.clean; simpl; congruence. }
  split; [exact H|].
  exact (proj1 (proj1 (reads_after_writes_legal _ Field.rowSpan 1%nat) H)).
Defined.

(** ** Properties of the message handlers *)

(** X13.  A resize message moves the children only while the panel is
    visible.  If either dimension of the message is negative the pass runs at
    the measured size, exactly as for an update request, even when the other
    dimension is valid; otherwise it runs at the width of the message, and
    the height of the message plays no part. *)
Theorem onResize_spec (this : DashboardPanel) (host : Host) (msg : Size) :
  (isVisible host = false ->
   onResize this host msg = [] /\ onUpdateRequest this host = [])
  /\ (isVisible host = true -> width msg < 0 \/ height msg < 0 ->
      onResize this host msg = onUpdateRequest this host)
  /\ (isVisible host = true -> 0 <= width msg -> 0 <= height msg ->
      forall h,
        onResize this host msg = map Perform (_layoutChildren this (width msg) h))
  /\ (forall a, In a (onResize this host msg) -> exists e, a = Perform e).
Proof.
  unfold onResize, onUpdateRequest. split; [intros ->; split; reflexivity|].
  split.
  { intros -> [H|H]; apply Qltb_lt in H; rewrite H; [reflexivity|].
    rewrite Bool.orb_true_r. reflexivity. }
  split.
  { intros -> Hw Hh h. apply Qltb_ge in Hw, Hh. rewrite Hw, Hh. reflexivity. }
  intros a Ha. destruct (isVisible host); [|destruct Ha].
  destruct (_ || _); apply in_map_iff in Ha; destruct Ha as (e & <- & _); eauto.
Qed.

Lemma onResize_spec_witness :
  isVisible shownHost = true
  /\ (0 <= width {| width := 300; height := -1 |}
      /\ height {| width := 300; height := -1 |} < 0)
  /\ onResize stackPanel shownHost {| width := 300; height := -1 |}
     = onUpdateRequest stackPanel shownHost.
Proof.
  assert (H1 : isVisible shownHost = true) by reflexivity.
  assert (H2 : height {| width := 300; height := -1 |} < 0) by reflexivity.
  split; [exact H1|]. split; [split; [discriminate|exact H2]|].
  apply (onResize_spec stackPanel shownHost {| width := 300; height := -1 |});
    [exact H1|right; exact H2].
Defined.





(** ** What the mode does not depend on *)

(** X17.  The mode and the column size depend on the column settings
    alone: two panels with the same column count, column spacing and minimum
    and maximum column size are in the same mode with the same column size at
    every width, whatever their aspect ratio, row sizes and row spacing. *)
Theorem layoutData_ignores_row_settings (this this' : DashboardPanel) (w : Q) :
  columnCount this' = columnCount this ->
  columnSpacing this' = columnSpacing this ->
  minColumnSize this' = minColumnSize this ->
  maxColumnSize this' = maxColumnSize this ->
  singleCol (_layoutData this' w) = singleCol (_layoutData this w)
  /\ colSize (_layoutData this' w) = colSize (_layoutData this w).
Proof.
  intros H1 H2 H3 H4. unfold _layoutData. rewrite H1, H2, H3, H4.
  destruct (Qltb _ _); split; reflexivity.
Qed.

Lemma layoutData_ignores_row_settings_witness :
  columnCount ratioPanel = columnCount stackPanel
  /\ columnSpacing ratioPanel = columnSpacing stackPanel
  /\ minColumnSize ratioPanel = minColumnSize stackPanel
  /\ maxColumnSize ratioPanel = maxColumnSize stackPanel
  /\ singleCol (_layoutData ratioPanel 688) = singleCol (_layoutData stackPanel 688)
  /\ colSize (_layoutData ratioPanel 688) = colSize (_layoutData stackPanel 688).
Proof.
  repeat (split; [reflexivity|]).
  apply (layoutData_ignores_row_settings stackPanel ratioPanel 688); reflexivity.
Defined.

(** ** Containment of the children that fit the grid *)



